(** * libdns-namesilo: the record provider of [provider.go]

    A shallow embedding of the namesilo provider (package [namesilo]) and the
    properties of its four operations [GetRecords], [AppendRecords],
    [SetRecords] and [DeleteRecords].

    The HTTP transport ([http.Client.Do]), the URL check of
    [http.NewRequest] and the XML decoder ([xml.Unmarshal]) belong to Go's
    standard library; they are parameters of the model.  Everything else is
    transcribed from the source, statement by statement. *)

From Stdlib Require Import ZArith List String Ascii Bool Lia Permutation.
From Stdlib Require Import DecimalString.
Import ListNotations.

Local Open Scope string_scope.
Local Open Scope Z_scope.

(** ** Go primitives *)

Module Go.

(** [strings.HasSuffix]. *)
Definition HasSuffix (s suffix : string) : bool :=
  (String.length suffix <=? String.length s)%nat
  && String.eqb
       (substring (String.length s - String.length suffix)
                  (String.length suffix) s)
       suffix.

(** [strings.TrimSuffix]: [s] without the trailing [suffix], or [s] itself
    when it does not end in [suffix]. *)
Definition TrimSuffix (s suffix : string) : string :=
  if HasSuffix s suffix
  then substring 0 (String.length s - String.length suffix) s
  else s.

(** Wrap-around of a signed 64-bit integer ([int], [int64],
    [time.Duration]). *)
Definition wrap64 (z : Z) : Z := (z + 2 ^ 63) mod 2 ^ 64 - 2 ^ 63.

(** [time.Second], in nanoseconds. *)
Definition Second : Z := 1000000000.

(** [fmt.Sprintf("%d", z)]. *)
Definition fmt_d (z : Z) : string := NilEmpty.string_of_int (Z.to_int z).

(** The built-in [copy(dst, src)]: the first [min (len dst) (len src)]
    elements of [dst] are overwritten, [dst] keeps its length. *)
Definition copy {A : Type} (dst src : list A) : list A :=
  let n := Nat.min (List.length dst) (List.length src) in
  firstn n src ++ skipn n dst.

(** [append(s[:i], s[i+1:]...)]: the slice without its element [i]. The
    elements are shifted in the backing array of [s]; both matching loops
    hold the removed element by value and break right after, so nothing
    reads the array through the old slice header. *)
Definition remove_at {A : Type} (i : nat) (s : list A) : list A :=
  firstn i s ++ skipn (S i) s.

End Go.

(** ** Data model *)

(** [libdns.Record] as the provider uses it. [TTL] is a [time.Duration]
    (nanoseconds), [Priority] an [int]. *)
Record Record_ : Type := mkRecord {
  ID : string;
  Type_ : string;
  Name : string;
  Value : string;
  TTL : Z;
  Priority : Z
}.

(** One [resource_record] element of the list reply, as decoded by
    [xml.Unmarshal] in [GetRecords]. *)
Record RawRecord : Type := mkRaw {
  raw_ID : string;
  raw_Type : string;
  raw_Name : string;
  raw_Value : string;
  raw_TTL : Z;
  raw_Priority : Z
}.

Record Provider : Type := mkProvider { APIToken : string }.

(** An [http.Response] after [ioutil.ReadAll]: the bytes read and whether
    reading failed. *)
Record Response : Type := mkResponse {
  StatusCode : Z;
  BodyBytes : string;
  BodyErr : bool
}.

(** The errors an operation returns, by kind. *)
Inductive Error : Type :=
| RequestError                                  (* http.NewRequest failed *)
| TransportError                                (* client.Do or ReadAll failed *)
| HTTPStatusError (status : Z) (body : string)  (* status other than 200 *)
| DecodeError                                   (* xml.Unmarshal failed *)
| RegistrarError (code : Z) (detail : string).  (* reply code other than 300 *)

(** How a call ends: with a value, with an error returned to the caller, or
    with the process terminated by [log.Fatalf]. *)
Inductive Outcome (A : Type) : Type :=
| Ok (a : A)
| Err (e : Error)
| Fatal.

Arguments Ok {A} a.
Arguments Err {A} e.
Arguments Fatal {A}.

Definition getDomain (zone : string) : string := Go.TrimSuffix zone ".".

Definition getHostname (zone name : string) : string :=
  Go.TrimSuffix (Go.TrimSuffix name zone) ".".

Definition getApiHost (p : Provider) : string := "https://www.namesilo.com/api".

(** ** The registrar, seen from the provider

    [roundTrip url w] is [client.Do] on a GET request for [url] in the world
    [w]: the response (or [None] for a transport failure) and the world
    after the call.  [newRequestOk] tells whether [http.NewRequest] accepts
    the URL.  [unmarshalRecords] and [unmarshalReply] are [xml.Unmarshal]
    into the two reply structures, [None] when it returns an error. *)
Class Registrar : Type := {
  World : Type;
  roundTrip : string -> World -> option Response * World;
  newRequestOk : string -> bool;
  unmarshalRecords : string -> option (list RawRecord);
  unmarshalReply : string -> option (Z * string)
}.

(** The state threaded through an operation: the registrar's world and the
    trace of the URLs handed to [client.Do], oldest first. *)
Record State {R : Registrar} : Type := mkState {
  world : World;
  calls : list string
}.

Definition M {R : Registrar} (A : Type) : Type := State -> Outcome A * State.

Definition ret {R : Registrar} {A : Type} (a : A) : M A := fun st => (Ok a, st).

Definition fail {R : Registrar} {A : Type} (e : Error) : M A :=
  fun st => (Err e, st).

Definition fatal {R : Registrar} {A : Type} : M A := fun st => (Fatal, st).

Definition bind {R : Registrar} {A B : Type} (m : M A) (k : A -> M B) : M B :=
  fun st =>
    match m st with
    | (Ok a, st') => k a st'
    | (Err e, st') => (Err e, st')
    | (Fatal, st') => (Fatal, st')
    end.

Notation "x <- m ;; k" := (bind m (fun x => k))
  (at level 61, m at next level, right associativity).

(** ** Matching of desired and requested records against the current ones *)

(** The condition of both matching loops:
    [currentRecord.Type == record.Type &&
     getHostname(zone, currentRecord.Name) == getHostname(zone, record.Name)]. *)
Definition matches (zone : string) (currentRecord record : Record_) : bool :=
  String.eqb (Type_ currentRecord) (Type_ record)
  && String.eqb (getHostname zone (Name currentRecord))
                (getHostname zone (Name record)).

Definition setID (record : Record_) (id : string) : Record_ :=
  {| ID := id; Type_ := Type_ record; Name := Name record;
     Value := Value record; TTL := TTL record; Priority := Priority record |}.

(** The local variables of the first loop of [SetRecords]. *)
Record SetVars : Type := mkSetVars {
  s_currentRecords : list Record_;
  s_updateRecords : list Record_;
  s_appendRecords : list Record_
}.

(** The inner loop of [SetRecords], [for i, currentRecord := range
    currentRecords], from index [i] on; [rest] is what the range has still to
    visit.  A match removes element [i] from the pool and breaks; the test
    [i == len(currentRecords)-1] is taken on Go's integers. *)
Fixpoint setScan (zone : string) (record : Record_) (i : nat)
         (rest : list Record_) (s : SetVars) : SetVars :=
  match rest with
  | [] => s
  | currentRecord :: rest' =>
      if matches zone currentRecord record then
        {| s_currentRecords := Go.remove_at i (s_currentRecords s);
           s_updateRecords :=
             s_updateRecords s ++ [setID record (ID currentRecord)];
           s_appendRecords := s_appendRecords s |}
      else
        let s' :=
          if Z.of_nat i =? Z.of_nat (List.length (s_currentRecords s)) - 1
          then {| s_currentRecords := s_currentRecords s;
                  s_updateRecords := s_updateRecords s;
                  s_appendRecords := s_appendRecords s ++ [record] |}
          else s in
        setScan zone record (S i) rest' s'
  end.

(** One round of the outer loop of [SetRecords]. *)
Definition setStep (zone : string) (s : SetVars) (record : Record_) : SetVars :=
  if String.eqb (ID record) EmptyString then
    setScan zone record 0 (s_currentRecords s) s
  else
    {| s_currentRecords := s_currentRecords s;
       s_updateRecords := s_updateRecords s ++ [record];
       s_appendRecords := s_appendRecords s |}.

(** The first loop of [SetRecords] (lines 175-192). *)
Definition setPartition (zone : string) (records currentRecords : list Record_)
  : SetVars :=
  fold_left (setStep zone) records
            {| s_currentRecords := currentRecords;
               s_updateRecords := [];
               s_appendRecords := [] |}.

(** The local variables of the first loop of [DeleteRecords]. *)
Record DelVars : Type := mkDelVars {
  d_currentRecords : list Record_;
  d_deleteRecords : list Record_
}.

(** The inner loop of [DeleteRecords] from index [i] on. *)
Fixpoint deleteScan (zone : string) (record : Record_) (i : nat)
         (rest : list Record_) (s : DelVars) : DelVars :=
  match rest with
  | [] => s
  | currentRecord :: rest' =>
      if matches zone currentRecord record then
        {| d_currentRecords := Go.remove_at i (d_currentRecords s);
           d_deleteRecords := d_deleteRecords s ++ [currentRecord] |}
      else deleteScan zone record (S i) rest' s
  end.

Definition deleteStep (zone : string) (s : DelVars) (record : Record_) : DelVars :=
  deleteScan zone record 0 (d_currentRecords s) s.

(** The first loop of [DeleteRecords] (lines 273-281). *)
Definition deleteMatch (zone : string) (records currentRecords : list Record_)
  : DelVars :=
  fold_left (deleteStep zone) records
            {| d_currentRecords := currentRecords; d_deleteRecords := [] |}.

(** ** Request URLs *)

Definition rrttl (record : Record_) : string :=
  if TTL record =? 0 then EmptyString
  else "&rrttl=" ++ Go.fmt_d (Z.quot (TTL record) Go.Second).

Definition rrdistance (record : Record_) : string :=
  if Priority record =? 0 then EmptyString
  else "&rrdistance=" ++ Go.fmt_d (Priority record).

Definition listURL (p : Provider) (zone : string) : string :=
  getApiHost p ++ "/dnsListRecords?version=1&type=xml&key=" ++ APIToken p
    ++ "&domain=" ++ getDomain zone.

Definition addURL (p : Provider) (zone : string) (record : Record_) : string :=
  getApiHost p ++ "/dnsAddRecord?version=1&type=xml&key=" ++ APIToken p
    ++ "&domain=" ++ getDomain zone ++ "&rrtype=" ++ Type_ record
    ++ "&rrhost=" ++ getHostname zone (Name record)
    ++ "&rrvalue=" ++ Value record ++ rrttl record ++ rrdistance record.

Definition updateURL (p : Provider) (zone : string) (record : Record_) : string :=
  getApiHost p ++ "/dnsUpdateRecord?version=1&type=xml&key=" ++ APIToken p
    ++ "&domain=" ++ getDomain zone ++ "&rrid=" ++ ID record
    ++ "&rrhost=" ++ getHostname zone (Name record)
    ++ "&rrvalue=" ++ Value record ++ rrdistance record ++ rrttl record.

Definition deleteURL (p : Provider) (zone : string) (record : Record_) : string :=
  getApiHost p ++ "/dnsDeleteRecord?version=1&type=xml&key=" ++ APIToken p
    ++ "&domain=" ++ getDomain zone ++ "&rrid=" ++ ID record.

(** ** The four operations *)

Section Operations.

Context {R : Registrar}.

(** [client.Do(req)]: the URL enters the trace, the world moves on. *)
Definition clientDo (url : string) : M Response :=
  fun st =>
    let '(resp, w) := roundTrip url (world st) in
    let st' := {| world := w; calls := (calls st ++ [url])%list |} in
    match resp with
    | Some r => (Ok r, st')
    | None => (Err TransportError, st')
    end.

(** [http.NewRequest("GET", url, nil)]. *)
Definition newRequest (url : string) : M unit :=
  if newRequestOk url then ret tt else fail RequestError.

Definition toRecord (raw : RawRecord) : Record_ :=
  {| ID := raw_ID raw;
     Type_ := raw_Type raw;
     Name := raw_Name raw;
     Value := raw_Value raw;
     TTL := Go.wrap64 (raw_TTL raw * Go.Second);
     Priority := raw_Priority raw |}.

(** [GetRecords] (lines 36-94). The status is tested before the body is
    read; a body that does not decode ends in [log.Fatalf]. *)
Definition GetRecords (p : Provider) (zone : string) : M (list Record_) :=
  let url := listURL p zone in
  _ <- newRequest url ;;
  resp <- clientDo url ;;
  if negb (StatusCode resp =? 200) then
    fail (HTTPStatusError (StatusCode resp) (BodyBytes resp))
  else if BodyErr resp then fail TransportError
  else
    match unmarshalRecords (BodyBytes resp) with
    | None => fatal
    | Some resultObj => ret (map toRecord resultObj)
    end.

(** What the loops of [AppendRecords], [SetRecords] and [DeleteRecords] do
    with a request URL: build the request, send it, read the body, test
    the status, decode the acknowledgement, test its code. The three
    loops spell out the same statements in the same order. *)
Definition acknowledged (url : string) : M unit :=
  _ <- newRequest url ;;
  resp <- clientDo url ;;
  if BodyErr resp then fail TransportError
  else if negb (StatusCode resp =? 200) then
    fail (HTTPStatusError (StatusCode resp) (BodyBytes resp))
  else
    match unmarshalReply (BodyBytes resp) with
    | None => fail DecodeError
    | Some (code, detail) =>
        if negb (code =? 300) then fail (RegistrarError code detail)
        else ret tt
    end.

(** The loop of [AppendRecords] (lines 101-155), [appendedRecords] being
    the slice built so far. *)
Fixpoint appendLoop (p : Provider) (zone : string) (records : list Record_)
         (appendedRecords : list Record_) : M (list Record_) :=
  match records with
  | [] => ret appendedRecords
  | record :: rest =>
      _ <- acknowledged (addURL p zone record) ;;
      appendLoop p zone rest (appendedRecords ++ [record])
  end.

Definition AppendRecords (p : Provider) (zone : string)
           (records : list Record_) : M (list Record_) :=
  appendLoop p zone records [].

(** The second loop of [SetRecords] (lines 201-254). *)
Fixpoint updateLoop (p : Provider) (zone : string)
         (updateRecords : list Record_) (updatedRecords : list Record_)
  : M (list Record_) :=
  match updateRecords with
  | [] => ret updatedRecords
  | record :: rest =>
      _ <- acknowledged (updateURL p zone record) ;;
      updateLoop p zone rest (updatedRecords ++ [record])
  end.

(** [SetRecords] (lines 162-257). [updatedRecords] is the nil slice when
    [copy] is called on it. *)
Definition SetRecords (p : Provider) (zone : string)
           (records : list Record_) : M (list Record_) :=
  currentRecords <- GetRecords p zone ;;
  let s := setPartition zone records currentRecords in
  let updatedRecords : list Record_ := [] in
  appendedRecords <- AppendRecords p zone (s_appendRecords s) ;;
  let updatedRecords := Go.copy updatedRecords appendedRecords in
  updateLoop p zone (s_updateRecords s) updatedRecords.

(** The second loop of [DeleteRecords] (lines 283-323). *)
Fixpoint deleteLoop (p : Provider) (zone : string)
         (deleteRecords : list Record_) (deletedRecords : list Record_)
  : M (list Record_) :=
  match deleteRecords with
  | [] => ret deletedRecords
  | record :: rest =>
      _ <- acknowledged (deleteURL p zone record) ;;
      deleteLoop p zone rest (deletedRecords ++ [record])
  end.

(** [DeleteRecords] (lines 260-326). *)
Definition DeleteRecords (p : Provider) (zone : string)
           (records : list Record_) : M (list Record_) :=
  currentRecords <- GetRecords p zone ;;
  let s := deleteMatch zone records currentRecords in
  deleteLoop p zone (d_deleteRecords s) [].

End Operations.

(** ** Vocabulary of the statements *)

(** The shape the request loops of [AppendRecords], [SetRecords] and
    [DeleteRecords] share, [url] being the request of one record. *)
Fixpoint ackLoop {R : Registrar} (url : Record_ -> string)
         (records : list Record_) (done : list Record_) : M (list Record_) :=
  match records with
  | [] => ret done
  | record :: rest =>
      _ <- acknowledged (url record) ;;
      ackLoop url rest (done ++ [record])
  end.

(** The registrar answers the request [url], sent in state [st], with
    status 200 and an acknowledgement that decodes to the pair
    [(code, detail)], leaving the world [w]. *)
Definition answers {R : Registrar} (url : string) (st : State) (code : Z)
           (detail : string) (w : World) : Prop :=
  newRequestOk url = true
  /\ exists resp,
      roundTrip url (world st) = (Some resp, w)
      /\ StatusCode resp = 200
      /\ BodyErr resp = false
      /\ unmarshalReply (BodyBytes resp) = Some (code, detail).

(** A name that normalization in the zone leaves as it is: it carries
    neither the zone as a suffix nor a trailing dot. *)
Definition normalized (zone name : string) : Prop :=
  getHostname zone name = name.

(** Two records with the same type and the same hostname in the zone. *)
Definition sameName (zone : string) (r r' : Record_) : Prop :=
  Type_ r = Type_ r'
  /\ getHostname zone (Name r) = getHostname zone (Name r').

(** Two records that the first loop of [SetRecords] cannot tell apart. *)
Definition sameKey (zone : string) (r r' : Record_) : Prop :=
  ID r = ID r' /\ sameName zone r r'.

(** The first record of [pool] that [matches] [record], with what comes
    before and after it. *)
Fixpoint firstMatch (zone : string) (record : Record_) (pool : list Record_)
  : option (list Record_ * Record_ * list Record_) :=
  match pool with
  | [] => None
  | c :: rest =>
      if matches zone c record then Some ([], c, rest)
      else match firstMatch zone record rest with
           | Some (before, m, after) => Some (c :: before, m, after)
           | None => None
           end
  end.

(** What the inner loop of [SetRecords] leaves behind: a match is taken out
    of the pool and makes an update; without a match the record is queued
    for creation on the last round of the loop, so only if there is a round. *)
Definition setScanned (zone : string) (record : Record_) (s : SetVars) : SetVars :=
  match firstMatch zone record (s_currentRecords s) with
  | Some (before, c, after) =>
      {| s_currentRecords := before ++ after;
         s_updateRecords := s_updateRecords s ++ [setID record (ID c)];
         s_appendRecords := s_appendRecords s |}
  | None =>
      match s_currentRecords s with
      | [] => s
      | _ :: _ =>
          {| s_currentRecords := s_currentRecords s;
             s_updateRecords := s_updateRecords s;
             s_appendRecords := s_appendRecords s ++ [record] |}
      end
  end.

(** A binding gives, for each desired record in turn, the current record it
    was matched with, if any. [bound] lists the current records in use. *)
Definition bound (binding : list (option Record_)) : list Record_ :=
  flat_map (fun b => match b with Some c => [c] | None => [] end) binding.

(** The update list a binding stands for: a matched record takes the ID of
    its current record, a record that came with an ID is kept as it is, and
    a record without ID and without match is no update. *)
Fixpoint resolve (records : list Record_) (binding : list (option Record_))
  : list Record_ :=
  match records, binding with
  | r :: rs, Some c :: bs => setID r (ID c) :: resolve rs bs
  | r :: rs, None :: bs =>
      (if String.eqb (ID r) EmptyString then [] else [r]) ++ resolve rs bs
  | _, _ => []
  end.

(** ** A scripted registrar

    A registrar for running the operations on examples: the world is the list
    of the responses still to come, served one per call whatever the URL; when
    the script is used up the transport fails. The decoders know a handful of
    reply bodies. *)
Module Scripted.

Definition listBody : string :=
  "<namesilo><reply><resource_record><record_id>5</record_id><type>A</type><host>www.matjes.life</host><value>1.2.3.4</value><ttl>3600</ttl><distance>0</distance></resource_record></reply></namesilo>".

Definition txtBody : string :=
  "<namesilo><reply><resource_record><record_id>7</record_id><type>TXT</type><host>_test.matjes.life</host><value>old</value><ttl>3600</ttl><distance>0</distance></resource_record></reply></namesilo>".

Definition emptyBody : string := "<namesilo><reply></reply></namesilo>".

Definition okBody : string :=
  "<namesilo><reply><code>300</code><detail>success</detail></reply></namesilo>".

Definition refusedBody : string :=
  "<namesilo><reply><code>280</code><detail>DNS modification error</detail></reply></namesilo>".

Definition www : RawRecord :=
  {| raw_ID := "5"; raw_Type := "A"; raw_Name := "www.matjes.life";
     raw_Value := "1.2.3.4"; raw_TTL := 3600; raw_Priority := 0 |}.

Definition txt : RawRecord :=
  {| raw_ID := "7"; raw_Type := "TXT"; raw_Name := "_test.matjes.life";
     raw_Value := "old"; raw_TTL := 3600; raw_Priority := 0 |}.

Definition txt2 : RawRecord :=
  {| raw_ID := "8"; raw_Type := "TXT"; raw_Name := "_test.matjes.life";
     raw_Value := "older"; raw_TTL := 7207; raw_Priority := 0 |}.

Fixpoint lookup {A : Type} (body : string) (table : list (string * A))
  : option A :=
  match table with
  | [] => None
  | (b, a) :: rest => if String.eqb b body then Some a else lookup body rest
  end.

Definition records_of (body : string) : option (list RawRecord) :=
  lookup body
         [(listBody, [www]); (txtBody, [txt]); (emptyBody, []);
          (okBody, []); (refusedBody, [])].

Definition reply_of (body : string) : option (Z * string) :=
  lookup body
         [(okBody, (300, "success"));
          (refusedBody, (280, "DNS modification error"));
          (listBody, (0, EmptyString)); (txtBody, (0, EmptyString)); (emptyBody, (0, EmptyString))].

Definition serve (url : string) (w : list (option Response))
  : option Response * list (option Response) :=
  match w with
  | [] => (None, [])
  | r :: w' => (r, w')
  end.

Definition registrar : Registrar :=
  {| World := list (option Response);
     roundTrip := serve;
     newRequestOk := fun _ => true;
     unmarshalRecords := records_of;
     unmarshalReply := reply_of |}.

Definition http200 (body : string) : option Response :=
  Some {| StatusCode := 200; BodyBytes := body; BodyErr := false |}.

Definition state (script : list (option Response)) (trace : list string)
  : @State registrar :=
  {| world := (script : @World registrar); calls := trace |}.

Definition start (script : list (option Response)) : @State registrar :=
  state script [].

Definition provider : Provider := {| APIToken := "token" |}.

Definition zone : string := "matjes.life".

(** The record [r] of the test driver [test/main.go]. *)
Definition r : Record_ :=
  {| ID := EmptyString; Type_ := "TXT"; Name := "_test.matjes.life";
     Value := "text"; TTL := 3600 * Go.Second; Priority := 0 |}.

(** [r] under its hostname in the zone. *)
Definition r_short : Record_ :=
  {| ID := EmptyString; Type_ := "TXT"; Name := "_test";
     Value := "text"; TTL := 3600 * Go.Second; Priority := 0 |}.

(** [r] without TTL and with a value that spells out a TTL parameter. *)
Definition r_injected : Record_ :=
  {| ID := EmptyString; Type_ := "TXT"; Name := "_test.matjes.life";
     Value := "text&rrttl=3600"; TTL := 0; Priority := 0 |}.

(** The record [q] of the test driver. *)
Definition q : Record_ :=
  {| ID := EmptyString; Type_ := "TXT"; Name := "_acme.matjes.life";
     Value := "token"; TTL := 3600 * Go.Second; Priority := 0 |}.

End Scripted.

(** ** The test driver [test/main.go] *)

Module Driver.

Definition token : string := "dc75366429d1fc8f36f9".

Definition zone : string := "matjes.life".

Definition provider : Provider := {| APIToken := token |}.

Definition r : Record_ :=
  {| ID := EmptyString; Type_ := "TXT"; Name := "_test.matjes.life";
     Value := "text"; TTL := Go.wrap64 (3600 * Go.Second); Priority := 0 |}.

Definition q : Record_ :=
  {| ID := EmptyString; Type_ := "TXT"; Name := "_acme.matjes.life";
     Value := "token"; TTL := Go.wrap64 (3600 * Go.Second); Priority := 0 |}.

Definition newline : string := String (ascii_of_nat 10) EmptyString.

(** [fmt.Printf("%s (%s): %s, %s\n", record.Name, record.ID, record.Value,
    record.Type)]. *)
Definition line (record : Record_) : string :=
  Name record ++ " (" ++ ID record ++ "): " ++ Value record ++ ", "
    ++ Type_ record ++ newline.

(** [main]: delete [r] and [q], list the zone, print one line per record.
    The value returned is what is printed; an error of either call goes to
    [log.Fatalln], which ends the process. *)
Definition main {R : Registrar} : M (list string) :=
  fun st =>
    match DeleteRecords provider zone [r; q] st with
    | (Ok _, st1) =>
        match GetRecords provider zone st1 with
        | (Ok records, st2) => (Ok (map line records), st2)
        | (Err _, st2) => (Fatal, st2)
        | (Fatal, st2) => (Fatal, st2)
        end
    | (Err _, st1) => (Fatal, st1)
    | (Fatal, st1) => (Fatal, st1)
    end.

End Driver.

(** ** More vocabulary *)

(** A record as a caller gives it when the registrar's ID is not known. *)
Definition blankID (record : Record_) : Record_ := setID record EmptyString.

(** [l1] is the beginning of [l2]. *)
Definition startOf {A : Type} (l1 l2 : list A) : Prop :=
  exists rest, l2 = (l1 ++ rest)%list.

(** The last character of a string, if it has one. *)
Fixpoint lastChar (s : string) : option ascii :=
  match s with
  | EmptyString => None
  | String c EmptyString => Some c
  | String _ rest => lastChar rest
  end.

(** * Properties *)

(** ** Slices *)

Lemma remove_at_middle (A : Type) (pre post : list A) (x : A) :
  Go.remove_at (List.length pre) (pre ++ x :: post)%list = (pre ++ post)%list.
Proof.
  unfold Go.remove_at.
  rewrite firstn_app, firstn_all, Nat.sub_diag, firstn_O, app_nil_r.
  replace (S (List.length pre)) with (List.length (pre ++ [x])%list)
    by (rewrite length_app; simpl; lia).
  replace (pre ++ x :: post)%list with ((pre ++ [x]) ++ post)%list
    by (rewrite <- app_assoc; reflexivity).
  rewrite skipn_app, skipn_all, Nat.sub_diag; reflexivity.
Qed.

Lemma copy_into_nil (A : Type) (src : list A) : Go.copy [] src = [].
Proof. reflexivity. Qed.

(** ** The matching condition *)

Lemma matches_iff zone c r :
  matches zone c r = true <->
  Type_ c = Type_ r /\ getHostname zone (Name c) = getHostname zone (Name r).
Proof.
  unfold matches.
  rewrite andb_true_iff, !String.eqb_eq.
  reflexivity.
Qed.

Lemma matches_same_key zone c r r' :
  Type_ r = Type_ r' ->
  getHostname zone (Name r) = getHostname zone (Name r') ->
  matches zone c r = matches zone c r'.
Proof. unfold matches; intros -> ->; reflexivity. Qed.

Lemma firstMatch_Some zone r pool before c after :
  firstMatch zone r pool = Some (before, c, after) ->
  pool = (before ++ c :: after)%list
  /\ matches zone c r = true
  /\ Forall (fun x => matches zone x r = false) before.
Proof.
  revert before c after.
  induction pool as [|x pool IH]; simpl; intros before c after H.
  - discriminate.
  - destruct (matches zone x r) eqn:Hx.
    + inversion H; subst. repeat split; auto.
    + destruct (firstMatch zone r pool) as [[[b m] a]|] eqn:Hf; [|discriminate].
      inversion H; subst.
      destruct (IH _ _ _ eq_refl) as (-> & Hm & Hb).
      repeat split; auto.
Qed.

Lemma firstMatch_None zone r pool :
  firstMatch zone r pool = None <->
  Forall (fun x => matches zone x r = false) pool.
Proof.
  induction pool as [|x pool IH]; simpl.
  - split; auto.
  - destruct (matches zone x r) eqn:Hx.
    + split; [discriminate|].
      intros H; inversion H; congruence.
    + destruct (firstMatch zone r pool) as [[[b m] a]|].
      * split; [discriminate|].
        intros H; inversion H; subst.
        apply IH in H3; discriminate.
      * split; auto. intros _. constructor; auto. apply IH; reflexivity.
Qed.

Lemma firstMatch_middle zone r before c after :
  Forall (fun x => matches zone x r = false) before ->
  matches zone c r = true ->
  firstMatch zone r (before ++ c :: after)%list = Some (before, c, after).
Proof.
  induction 1 as [|x before Hx _ IH]; simpl; intros Hc.
  - rewrite Hc; reflexivity.
  - rewrite Hx, (IH Hc); reflexivity.
Qed.

Lemma firstMatch_same_key zone r r' pool :
  Type_ r = Type_ r' ->
  getHostname zone (Name r) = getHostname zone (Name r') ->
  firstMatch zone r pool = firstMatch zone r' pool.
Proof.
  intros Ht Hn.
  induction pool as [|x pool IH]; simpl; auto.
  rewrite (matches_same_key zone x r r' Ht Hn), IH; reflexivity.
Qed.

(** ** The inner loops, in terms of the first match *)

Lemma setScan_from zone record rest :
  forall pre s,
    s_currentRecords s = (pre ++ rest)%list ->
    setScan zone record (List.length pre) rest s =
    match firstMatch zone record rest with
    | Some (before, c, after) =>
        {| s_currentRecords := pre ++ before ++ after;
           s_updateRecords := s_updateRecords s ++ [setID record (ID c)];
           s_appendRecords := s_appendRecords s |}
    | None =>
        match rest with
        | [] => s
        | _ :: _ =>
            {| s_currentRecords := s_currentRecords s;
               s_updateRecords := s_updateRecords s;
               s_appendRecords := s_appendRecords s ++ [record] |}
        end
    end.
Proof.
  induction rest as [|c rest IH]; intros pre s Hs; simpl.
  - reflexivity.
  - destruct (matches zone c record) eqn:Hc.
    + rewrite Hs, remove_at_middle. reflexivity.
    + assert (Hlen : List.length (s_currentRecords s)
                     = (List.length pre + S (List.length rest))%nat)
        by (rewrite Hs, length_app; reflexivity).
      replace (S (List.length pre)) with (List.length (pre ++ [c])%list)
        by (rewrite length_app; simpl; lia).
      destruct rest as [|c' rest'].
      * replace (Z.of_nat (List.length pre)
                 =? Z.of_nat (List.length (s_currentRecords s)) - 1) with true
          by (symmetry; apply Z.eqb_eq; simpl in Hlen; lia).
        reflexivity.
      * replace (Z.of_nat (List.length pre)
                 =? Z.of_nat (List.length (s_currentRecords s)) - 1) with false
          by (symmetry; apply Z.eqb_neq; simpl in Hlen; lia).
        rewrite IH by (rewrite Hs, <- app_assoc; reflexivity).
        destruct (firstMatch zone record (c' :: rest')) as [[[b m] a]|].
        -- rewrite <- app_assoc. reflexivity.
        -- reflexivity.
Qed.

Lemma setStep_no_ID zone s record :
  ID record = EmptyString ->
  setStep zone s record = setScanned zone record s.
Proof.
  intros Hid. unfold setStep, setScanned.
  rewrite Hid. simpl.
  pose proof (setScan_from zone record (s_currentRecords s) [] s eq_refl) as H.
  simpl in H. rewrite H.
  destruct (firstMatch zone record (s_currentRecords s)) as [[[b m] a]|];
    reflexivity.
Qed.

Lemma setStep_with_ID zone s record :
  ID record <> EmptyString ->
  setStep zone s record =
  {| s_currentRecords := s_currentRecords s;
     s_updateRecords := s_updateRecords s ++ [record];
     s_appendRecords := s_appendRecords s |}.
Proof.
  intros Hid. unfold setStep.
  destruct (String.eqb_spec (ID record) EmptyString); [contradiction | reflexivity].
Qed.

Lemma deleteScan_from zone record rest :
  forall pre s,
    d_currentRecords s = (pre ++ rest)%list ->
    deleteScan zone record (List.length pre) rest s =
    match firstMatch zone record rest with
    | Some (before, c, after) =>
        {| d_currentRecords := pre ++ before ++ after;
           d_deleteRecords := d_deleteRecords s ++ [c] |}
    | None => s
    end.
Proof.
  induction rest as [|c rest IH]; intros pre s Hs; simpl.
  - reflexivity.
  - destruct (matches zone c record) eqn:Hc.
    + rewrite Hs, remove_at_middle. reflexivity.
    + replace (S (List.length pre)) with (List.length (pre ++ [c])%list)
        by (rewrite length_app; simpl; lia).
      rewrite IH by (rewrite Hs, <- app_assoc; reflexivity).
      destruct (firstMatch zone record rest) as [[[b m] a]|].
      * rewrite <- app_assoc. reflexivity.
      * reflexivity.
Qed.

Lemma deleteStep_firstMatch zone s record :
  deleteStep zone s record =
  match firstMatch zone record (d_currentRecords s) with
  | Some (before, c, after) =>
      {| d_currentRecords := before ++ after;
         d_deleteRecords := d_deleteRecords s ++ [c] |}
  | None => s
  end.
Proof.
  unfold deleteStep.
  apply (deleteScan_from zone record (d_currentRecords s) [] s eq_refl).
Qed.

(** ** The matching loops as a whole *)

Lemma bound_app b1 b2 : bound (b1 ++ b2) = (bound b1 ++ bound b2)%list.
Proof. unfold bound. apply flat_map_app. Qed.

(** Every run of the first loop of [SetRecords] has a binding: the current
    records in use and the pool that is left make up the pool at the start,
    and the update list is the one the binding stands for. *)
Lemma setSteps_binding zone records :
  forall s,
  exists binding,
    List.length binding = List.length records
    /\ Permutation
         (bound binding ++ s_currentRecords (fold_left (setStep zone) records s))
         (s_currentRecords s)
    /\ Forall2 (fun r b => match b with
                           | Some c => ID r = EmptyString /\ matches zone c r = true
                           | None => True
                           end) records binding
    /\ s_updateRecords (fold_left (setStep zone) records s)
       = (s_updateRecords s ++ resolve records binding)%list.
Proof.
  induction records as [|r records IH]; intros s; simpl.
  - exists []. simpl. rewrite app_nil_r. repeat split; auto.
  - destruct (String.eqb_spec (ID r) EmptyString) as [Hid|Hid].
    + rewrite (setStep_no_ID zone s r Hid). unfold setScanned.
      destruct (firstMatch zone r (s_currentRecords s))
        as [[[before c] after]|] eqn:Hf.
      * apply firstMatch_Some in Hf. destruct Hf as (Hpool & Hc & _).
        match goal with
        | |- context [fold_left _ records ?s1] =>
            destruct (IH s1) as (bs & Hlen & Hperm & Hall & Hupd)
        end.
        exists (Some c :: bs). simpl in *.
        repeat split; auto.
        -- rewrite Hpool. apply Permutation_cons_app. exact Hperm.
        -- rewrite Hupd, <- app_assoc. reflexivity.
      * destruct (s_currentRecords s) as [|c0 pool0] eqn:Hpool;
          match goal with
          | |- context [fold_left _ records ?s1] =>
              destruct (IH s1) as (bs & Hlen & Hperm & Hall & Hupd)
          end;
          exists (None :: bs); simpl in *;
          rewrite ?Hpool in Hperm;
          destruct (String.eqb_spec (ID r) EmptyString); try contradiction;
          repeat split; auto.
    + rewrite (setStep_with_ID zone s r Hid).
      match goal with
      | |- context [fold_left _ records ?s1] =>
          destruct (IH s1) as (bs & Hlen & Hperm & Hall & Hupd)
      end.
      exists (None :: bs). simpl in *.
      destruct (String.eqb_spec (ID r) EmptyString); [contradiction|].
      repeat split; auto.
      rewrite Hupd, <- app_assoc. reflexivity.
Qed.

(** The same for the first loop of [DeleteRecords], whose queue is the list
    of the current records in use. *)
Lemma deleteSteps_binding zone records :
  forall s,
  exists binding,
    List.length binding = List.length records
    /\ Permutation
         (bound binding
            ++ d_currentRecords (fold_left (deleteStep zone) records s))
         (d_currentRecords s)
    /\ Forall2 (fun r b => match b with
                           | Some c => matches zone c r = true
                           | None => True
                           end) records binding
    /\ d_deleteRecords (fold_left (deleteStep zone) records s)
       = (d_deleteRecords s ++ bound binding)%list.
Proof.
  induction records as [|r records IH]; intros s; simpl.
  - exists []. simpl. rewrite app_nil_r. repeat split; auto.
  - rewrite (deleteStep_firstMatch zone s r).
    destruct (firstMatch zone r (d_currentRecords s))
      as [[[before c] after]|] eqn:Hf;
      match goal with
      | |- context [fold_left _ records ?s1] =>
          destruct (IH s1) as (bs & Hlen & Hperm & Hall & Hdel)
      end.
    + apply firstMatch_Some in Hf. destruct Hf as (Hpool & Hc & _).
      exists (Some c :: bs). simpl in *.
      repeat split; auto.
      * rewrite Hpool. apply Permutation_cons_app. exact Hperm.
      * rewrite Hdel, <- app_assoc. reflexivity.
    + exists (None :: bs). simpl. repeat split; auto.
Qed.

Lemma deleteStep_skip zone s r :
  Forall (fun c => matches zone c r = false) (d_currentRecords s) ->
  deleteStep zone s r = s.
Proof.
  intros H. rewrite deleteStep_firstMatch.
  apply firstMatch_None in H. rewrite H. reflexivity.
Qed.

Lemma deleteMatch_skip zone rs1 r rs2 cur :
  Forall (fun c => matches zone c r = false)
         (d_currentRecords (deleteMatch zone rs1 cur)) ->
  deleteMatch zone (rs1 ++ r :: rs2) cur = deleteMatch zone (rs1 ++ rs2) cur.
Proof.
  unfold deleteMatch. intros H.
  rewrite !fold_left_app. simpl.
  rewrite (deleteStep_skip zone _ r H). reflexivity.
Qed.

Lemma bound_matched zone records binding :
  Forall2 (fun r b => match b with
                      | Some c => matches zone c r = true
                      | None => True
                      end) records binding ->
  Forall (fun c => exists r, In r records /\ matches zone c r = true)
         (bound binding).
Proof.
  induction 1 as [|r b records binding Hb _ IH]; simpl.
  - constructor.
  - assert (IH' : Forall (fun c => exists r0, In r0 (r :: records)
                                              /\ matches zone c r0 = true)
                         (bound binding)).
    { eapply Forall_impl; [|exact IH].
      intros c (r0 & Hin & Hm). exists r0; split; [right|]; auto. }
    destruct b as [c|]; simpl; auto.
    constructor; auto. exists r; split; [left|]; auto.
Qed.

(** ** Requests and acknowledgements *)

Section Calls.

Context {R : Registrar}.

Lemma acknowledged_answer url st code detail w :
  answers url st code detail w ->
  acknowledged url st =
  (if code =? 300 then Ok tt else Err (RegistrarError code detail),
   {| world := w; calls := calls st ++ [url] |}).
Proof.
  intros (Hreq & resp & Hrt & Hstatus & Hbody & Hdec).
  unfold acknowledged, bind, newRequest, clientDo.
  rewrite Hreq. unfold ret. rewrite Hrt, Hbody, Hstatus, Hdec. simpl.
  destruct (code =? 300); reflexivity.
Qed.

Lemma acknowledged_not_fatal url st st' :
  acknowledged url st <> (Fatal, st').
Proof.
  unfold acknowledged, bind, newRequest, clientDo, ret, fail.
  destruct (newRequestOk url); [|discriminate].
  destruct (roundTrip url (world st)) as [[resp|] w]; [|discriminate].
  destruct (BodyErr resp); [discriminate|].
  destruct (negb (StatusCode resp =? 200)); [discriminate|].
  destruct (unmarshalReply (BodyBytes resp)) as [[code detail]|];
    [|discriminate].
  destruct (negb (code =? 300)); discriminate.
Qed.

(** A request enters the trace once if [http.NewRequest] accepts it and
    not at all otherwise. *)
Lemma acknowledged_calls url st o st' :
  acknowledged url st = (o, st') ->
  calls st' = (calls st ++ if newRequestOk url then [url] else [])%list.
Proof.
  unfold acknowledged, bind, newRequest, clientDo, ret, fail.
  destruct (newRequestOk url).
  - destruct (roundTrip url (world st)) as [[resp|] w].
    + destruct (BodyErr resp); [intros H; inversion H; reflexivity|].
      destruct (negb (StatusCode resp =? 200));
        [intros H; inversion H; reflexivity|].
      destruct (unmarshalReply (BodyBytes resp)) as [[code detail]|];
        [|intros H; inversion H; reflexivity].
      destruct (negb (code =? 300)); intros H; inversion H; reflexivity.
    + intros H; inversion H; reflexivity.
  - intros H; inversion H. rewrite app_nil_r. reflexivity.
Qed.

Lemma acknowledged_ok_calls url st u st' :
  acknowledged url st = (Ok u, st') ->
  calls st' = (calls st ++ [url])%list.
Proof.
  intros H. rewrite (acknowledged_calls _ _ _ _ H).
  revert H. unfold acknowledged, bind, newRequest, fail.
  destruct (newRequestOk url); [reflexivity | discriminate].
Qed.

Lemma ackLoop_app url xs ys done st :
  ackLoop url (xs ++ ys) done st =
  match ackLoop url xs done st with
  | (Ok out, st') => ackLoop url ys out st'
  | (Err e, st') => (Err e, st')
  | (Fatal, st') => (Fatal, st')
  end.
Proof.
  revert done st.
  induction xs as [|x xs IH]; intros done st; simpl.
  - reflexivity.
  - unfold bind.
    destruct (acknowledged (url x) st) as [[u|e|] st1]; auto.
Qed.

Lemma ackLoop_ok url records :
  forall done st out st',
    ackLoop url records done st = (Ok out, st') ->
    out = (done ++ records)%list
    /\ calls st' = (calls st ++ map url records)%list.
Proof.
  induction records as [|r records IH]; intros done st out st'; simpl.
  - unfold ret. intros H; inversion H; subst.
    rewrite !app_nil_r. auto.
  - unfold bind.
    destruct (acknowledged (url r) st) as [[u|e|] st1] eqn:Hack;
      try discriminate.
    intros H. apply IH in H. destruct H as (-> & ->).
    rewrite (acknowledged_ok_calls _ _ _ _ Hack), <- !app_assoc. auto.
Qed.

Lemma ackLoop_not_fatal url records :
  forall done st st', ackLoop url records done st <> (Fatal, st').
Proof.
  induction records as [|r records IH]; intros done st st'; simpl.
  - discriminate.
  - unfold bind.
    destruct (acknowledged (url r) st) as [[u|e|] st1] eqn:Hack.
    + apply IH.
    + discriminate.
    + exfalso. exact (acknowledged_not_fatal _ _ _ Hack).
Qed.

(** A loop that returns an error went through a prefix of its records
    and failed on the next one; the state it returns is the state that the
    failing request left. *)
Lemma ackLoop_err url records :
  forall done st e st',
    ackLoop url records done st = (Err e, st') ->
    exists pre r post st1,
      records = (pre ++ r :: post)%list
      /\ ackLoop url pre done st = (Ok (done ++ pre)%list, st1)
      /\ acknowledged (url r) st1 = (Err e, st').
Proof.
  induction records as [|r records IH]; intros done st e st'; simpl.
  - discriminate.
  - unfold bind.
    destruct (acknowledged (url r) st) as [[u|e1|] st1] eqn:Hack.
    + intros H. apply IH in H.
      destruct H as (pre & r' & post & st2 & -> & Hpre & Hfail).
      exists (r :: pre), r', post, st2. simpl. unfold bind.
      rewrite Hack, Hpre, <- app_assoc. auto.
    + intros H; inversion H; subst.
      exists [], r, records, st. simpl. rewrite app_nil_r. auto.
    + discriminate.
Qed.

Lemma appendLoop_ackLoop p zone records :
  forall done, appendLoop p zone records done
               = ackLoop (addURL p zone) records done.
Proof.
  induction records as [|r records IH]; intros done; simpl;
    [|rewrite IH]; reflexivity.
Qed.

Lemma updateLoop_ackLoop p zone records :
  forall done, updateLoop p zone records done
               = ackLoop (updateURL p zone) records done.
Proof.
  induction records as [|r records IH]; intros done; simpl;
    [|rewrite IH]; reflexivity.
Qed.

Lemma deleteLoop_ackLoop p zone records :
  forall done, deleteLoop p zone records done
               = ackLoop (deleteURL p zone) records done.
Proof.
  induction records as [|r records IH]; intros done; simpl;
    [|rewrite IH]; reflexivity.
Qed.

(** A loop whose first records are acknowledged and whose next request is
    answered with a code other than 300 returns a [RegistrarError]. *)
Lemma ackLoop_refused url pre r post done st out st1 code detail w :
  ackLoop url pre done st = (Ok out, st1) ->
  answers (url r) st1 code detail w ->
  code <> 300 ->
  ackLoop url (pre ++ r :: post) done st
  = (Err (RegistrarError code detail),
     {| world := w; calls := calls st1 ++ [url r] |}).
Proof.
  intros Hpre Hans Hcode.
  rewrite ackLoop_app, Hpre. simpl. unfold bind.
  rewrite (acknowledged_answer _ _ _ _ _ Hans).
  apply Z.eqb_neq in Hcode. rewrite Hcode. reflexivity.
Qed.

End Calls.

(** ** Matching looks at the type and the hostname only *)

Lemma deleteMatch_sameName zone records records' cur :
  Forall2 (sameName zone) records records' ->
  deleteMatch zone records cur = deleteMatch zone records' cur.
Proof.
  unfold deleteMatch.
  generalize {| d_currentRecords := cur; d_deleteRecords := [] |}.
  intros s H. revert s.
  induction H as [|r r' records records' (Ht & Hn) _ IH]; intros s; simpl.
  - reflexivity.
  - rewrite !deleteStep_firstMatch.
    rewrite (firstMatch_same_key zone r r' _ Ht Hn).
    apply IH.
Qed.

Lemma setStep_sameKey zone s s' r r' :
  s_currentRecords s = s_currentRecords s' ->
  Forall2 (sameKey zone) (s_updateRecords s) (s_updateRecords s') ->
  Forall2 (sameKey zone) (s_appendRecords s) (s_appendRecords s') ->
  sameKey zone r r' ->
  s_currentRecords (setStep zone s r) = s_currentRecords (setStep zone s' r')
  /\ Forall2 (sameKey zone) (s_updateRecords (setStep zone s r))
             (s_updateRecords (setStep zone s' r'))
  /\ Forall2 (sameKey zone) (s_appendRecords (setStep zone s r))
             (s_appendRecords (setStep zone s' r')).
Proof.
  intros Hpool Hupd Happ (Hid & Ht & Hn).
  assert (Hk : sameKey zone r r') by (repeat split; auto).
  destruct (String.eqb_spec (ID r) EmptyString) as [Hr|Hr].
  - rewrite (setStep_no_ID zone s r Hr).
    rewrite (setStep_no_ID zone s' r') by congruence.
    unfold setScanned. rewrite <- Hpool.
    rewrite <- (firstMatch_same_key zone r r' _ Ht Hn).
    destruct (firstMatch zone r (s_currentRecords s))
      as [[[before c] after]|]; simpl.
    + repeat split; auto.
      apply Forall2_app; auto.
      constructor; auto. repeat split; auto.
    + destruct (s_currentRecords s) eqn:E; simpl;
        repeat split; auto; try congruence.
      apply Forall2_app; auto.
  - rewrite (setStep_with_ID zone s r Hr).
    rewrite (setStep_with_ID zone s' r') by congruence.
    simpl. repeat split; auto.
    apply Forall2_app; auto.
Qed.

Lemma setPartition_sameKey zone records records' cur :
  Forall2 (sameKey zone) records records' ->
  s_currentRecords (setPartition zone records cur)
  = s_currentRecords (setPartition zone records' cur)
  /\ Forall2 (sameKey zone) (s_updateRecords (setPartition zone records cur))
             (s_updateRecords (setPartition zone records' cur))
  /\ Forall2 (sameKey zone) (s_appendRecords (setPartition zone records cur))
             (s_appendRecords (setPartition zone records' cur)).
Proof.
  unfold setPartition.
  assert (Hgen : forall s s',
             s_currentRecords s = s_currentRecords s' ->
             Forall2 (sameKey zone) (s_updateRecords s) (s_updateRecords s') ->
             Forall2 (sameKey zone) (s_appendRecords s) (s_appendRecords s') ->
             Forall2 (sameKey zone) records records' ->
             s_currentRecords (fold_left (setStep zone) records s)
             = s_currentRecords (fold_left (setStep zone) records' s')
             /\ Forall2 (sameKey zone)
                  (s_updateRecords (fold_left (setStep zone) records s))
                  (s_updateRecords (fold_left (setStep zone) records' s'))
             /\ Forall2 (sameKey zone)
                  (s_appendRecords (fold_left (setStep zone) records s))
                  (s_appendRecords (fold_left (setStep zone) records' s'))).
  { intros s s' Hp Hu Ha H. revert s s' Hp Hu Ha.
    induction H as [|r r' records records' Hk _ IH]; intros s s' Hp Hu Ha.
    - simpl. auto.
    - simpl.
      destruct (setStep_sameKey zone s s' r r' Hp Hu Ha Hk) as (Hp1 & Hu1 & Ha1).
      apply IH; auto. }
  intros H. apply Hgen; simpl; auto.
Qed.

(** ** [GetRecords] *)

Section List.

Context {R : Registrar}.

Lemma GetRecords_ok p zone st out st' :
  GetRecords p zone st = (Ok out, st') ->
  exists resp resultObj,
    roundTrip (listURL p zone) (world st) = (Some resp, world st')
    /\ StatusCode resp = 200
    /\ unmarshalRecords (BodyBytes resp) = Some resultObj
    /\ out = map toRecord resultObj
    /\ calls st' = (calls st ++ [listURL p zone])%list.
Proof.
  unfold GetRecords, bind, newRequest, clientDo, ret, fail, fatal.
  destruct (newRequestOk (listURL p zone)); [|discriminate].
  destruct (roundTrip (listURL p zone) (world st)) as [[resp|] w];
    [|discriminate].
  destruct (StatusCode resp =? 200) eqn:Hs; simpl; [|discriminate].
  destruct (BodyErr resp); [discriminate|].
  destruct (unmarshalRecords (BodyBytes resp)) as [raws|] eqn:Hd;
    [|discriminate].
  intros H; inversion H; subst; simpl.
  exists resp, raws. apply Z.eqb_eq in Hs. auto.
Qed.

(** A reply with status 200 whose body was read and does not decode ends
    the process. *)
Lemma GetRecords_undecodable p zone st resp w :
  newRequestOk (listURL p zone) = true ->
  roundTrip (listURL p zone) (world st) = (Some resp, w) ->
  StatusCode resp = 200 ->
  BodyErr resp = false ->
  unmarshalRecords (BodyBytes resp) = None ->
  fst (GetRecords p zone st) = Fatal.
Proof.
  intros Hreq Hrt Hs Hb Hd.
  unfold GetRecords, bind, newRequest, clientDo, ret.
  rewrite Hreq, Hrt, Hs, Hb, Hd. reflexivity.
Qed.

Lemma SetRecords_unfold p zone records st cur st1 :
  GetRecords p zone st = (Ok cur, st1) ->
  SetRecords p zone records st =
  match ackLoop (addURL p zone)
                (s_appendRecords (setPartition zone records cur)) [] st1 with
  | (Ok appended, st2) =>
      ackLoop (updateURL p zone)
              (s_updateRecords (setPartition zone records cur)) [] st2
  | (Err e, st2) => (Err e, st2)
  | (Fatal, st2) => (Fatal, st2)
  end.
Proof.
  intros Hget. unfold SetRecords, bind, AppendRecords.
  rewrite Hget, appendLoop_ackLoop.
  destruct (ackLoop (addURL p zone) _ [] st1) as [[appended|e|] st2]; auto.
  rewrite copy_into_nil, updateLoop_ackLoop. reflexivity.
Qed.

Lemma DeleteRecords_unfold p zone records st cur st1 :
  GetRecords p zone st = (Ok cur, st1) ->
  DeleteRecords p zone records st =
  ackLoop (deleteURL p zone)
          (d_deleteRecords (deleteMatch zone records cur)) [] st1.
Proof.
  intros Hget. unfold DeleteRecords, bind.
  rewrite Hget, deleteLoop_ackLoop. reflexivity.
Qed.

End List.

(** ** [SetRecords]: what is created and what is returned *)

(** Whatever the registrar does, a [SetRecords] that succeeds returns the
    update list of its first loop and nothing else: [copy] finds no room in
    the nil slice [updatedRecords]. *)
Lemma SetRecords_returns_updates {R : Registrar} p zone records st cur st1 out st' :
  GetRecords p zone st = (Ok cur, st1) ->
  SetRecords p zone records st = (Ok out, st') ->
  out = s_updateRecords (setPartition zone records cur).
Proof.
  intros Hget. rewrite (SetRecords_unfold p zone records st cur st1 Hget).
  destruct (ackLoop (addURL p zone) _ [] st1) as [[appended|e|] st2];
    try discriminate.
  intros H. apply ackLoop_ok in H. tauto.
Qed.

(** With current records but none that matches, a record without ID is
    queued for creation. *)
Lemma setStep_unmatched zone s record c pool :
  ID record = EmptyString ->
  s_currentRecords s = c :: pool ->
  Forall (fun x => matches zone x record = false) (c :: pool) ->
  setStep zone s record =
  {| s_currentRecords := s_currentRecords s;
     s_updateRecords := s_updateRecords s;
     s_appendRecords := s_appendRecords s ++ [record] |}.
Proof.
  intros Hid Hpool Hno.
  rewrite (setStep_no_ID zone s record Hid). unfold setScanned.
  rewrite <- Hpool in Hno. apply firstMatch_None in Hno.
  rewrite Hno, Hpool. reflexivity.
Qed.

(** With no current record left, a record without ID goes nowhere. *)
Lemma setStep_empty_pool zone s record :
  ID record = EmptyString ->
  s_currentRecords s = [] ->
  setStep zone s record = s.
Proof.
  intros Hid Hpool. unfold setStep. rewrite Hid, Hpool. reflexivity.
Qed.

(** C1. [SetRecords] does not return the records it created. The zone holds
    one A record; the desired TXT record [r] matches nothing, is classified
    as a create and is created (the registrar acknowledges the add request
    with code 300), and every call succeeds; yet the sequence returned is
    empty, where the concatenation of created and updated records is [[r]]. *)
Theorem SetRecords_omits_created_records :
  s_appendRecords
    (setPartition Scripted.zone [Scripted.r] [toRecord Scripted.www])
  = [Scripted.r]
  /\ AppendRecords (R := Scripted.registrar) Scripted.provider Scripted.zone
       [Scripted.r] (Scripted.start [Scripted.http200 Scripted.okBody])
     = (Ok [Scripted.r],
        Scripted.state []
          [addURL Scripted.provider Scripted.zone Scripted.r])
  /\ SetRecords (R := Scripted.registrar) Scripted.provider Scripted.zone
       [Scripted.r]
       (Scripted.start [Scripted.http200 Scripted.listBody;
                        Scripted.http200 Scripted.okBody])
     = (Ok [],
        Scripted.state []
          [listURL Scripted.provider Scripted.zone;
                     addURL Scripted.provider Scripted.zone Scripted.r]).
Proof. repeat split; vm_compute; reflexivity. Qed.

(** C2. A desired record without ID that finds the pool of current records
    empty is not classified as a create: the first loop of [SetRecords]
    leaves it out of both lists, and no add request is sent. So in an empty
    zone [SetRecords] of [[r]] sends the list request only and returns the
    empty sequence; and when [r] is desired twice and one current record
    matches, the first takes the match and the second, finding the pool
    empty, is dropped instead of created. *)
Theorem SetRecords_drops_record_on_empty_pool :
  setPartition Scripted.zone [Scripted.r] []
  = {| s_currentRecords := []; s_updateRecords := []; s_appendRecords := [] |}
  /\ SetRecords (R := Scripted.registrar) Scripted.provider Scripted.zone
       [Scripted.r]
       (Scripted.start [Scripted.http200 Scripted.emptyBody;
                        Scripted.http200 Scripted.okBody])
     = (Ok [],
        Scripted.state [Scripted.http200 Scripted.okBody]
          [listURL Scripted.provider Scripted.zone])
  /\ setPartition Scripted.zone [Scripted.r; Scripted.r]
       [toRecord Scripted.txt]
     = {| s_currentRecords := [];
          s_updateRecords := [setID Scripted.r "7"];
          s_appendRecords := [] |}.
Proof. repeat split; vm_compute; reflexivity. Qed.

(** C3. A list reply that does not decode ends [GetRecords] in
    [log.Fatalf], which terminates the process: no error is returned to the
    caller. The same body makes [AppendRecords] return a decode error. *)
Theorem GetRecords_decode_failure_is_fatal :
  unmarshalRecords (Registrar := Scripted.registrar) "<html>" = None
  /\ GetRecords (R := Scripted.registrar) Scripted.provider Scripted.zone
       (Scripted.start [Scripted.http200 "<html>"])
     = (Fatal,
        Scripted.state []
          [listURL Scripted.provider Scripted.zone])
  /\ fst (AppendRecords (R := Scripted.registrar) Scripted.provider
            Scripted.zone [Scripted.r]
            (Scripted.start [Scripted.http200 "<html>"]))
     = Err DecodeError.
Proof. repeat split; vm_compute; reflexivity. Qed.

(** ** Acknowledgements *)

(** C4. In each of the three request loops, an acknowledgement that comes
    with HTTP status 200, decodes, and carries a code other than 300 makes
    the operation return a [RegistrarError] with that code and detail: for
    the create request of a record of [AppendRecords], for the update
    request of a record of [SetRecords], and for the delete request of a
    record of [DeleteRecords], the requests before it having been
    acknowledged. *)
Theorem refused_acknowledgement_fails_operation
        {R : Registrar} (p : Provider) (zone : string)
        (code : Z) (detail : string) :
  code <> 300 ->
  (forall pre r post st out st1 w,
      AppendRecords p zone pre st = (Ok out, st1) ->
      answers (addURL p zone r) st1 code detail w ->
      fst (AppendRecords p zone (pre ++ r :: post) st)
      = Err (RegistrarError code detail))
  /\ (forall records st cur st1 appended st2 pre r post out st3 w,
         GetRecords p zone st = (Ok cur, st1) ->
         AppendRecords p zone (s_appendRecords (setPartition zone records cur))
                       st1 = (Ok appended, st2) ->
         s_updateRecords (setPartition zone records cur)
         = (pre ++ r :: post)%list ->
         updateLoop p zone pre [] st2 = (Ok out, st3) ->
         answers (updateURL p zone r) st3 code detail w ->
         fst (SetRecords p zone records st)
         = Err (RegistrarError code detail))
  /\ (forall records st cur st1 pre r post out st2 w,
         GetRecords p zone st = (Ok cur, st1) ->
         d_deleteRecords (deleteMatch zone records cur)
         = (pre ++ r :: post)%list ->
         deleteLoop p zone pre [] st1 = (Ok out, st2) ->
         answers (deleteURL p zone r) st2 code detail w ->
         fst (DeleteRecords p zone records st)
         = Err (RegistrarError code detail)).
Proof.
  intros Hcode. split; [|split].
  - intros pre r post st out st1 w Hpre Hans.
    unfold AppendRecords in *. rewrite appendLoop_ackLoop in *.
    rewrite (ackLoop_refused _ pre r post [] st out st1 code detail w
                             Hpre Hans Hcode).
    reflexivity.
  - intros records st cur st1 appended st2 pre r post out st3 w
           Hget Happ Hupd Hpre Hans.
    rewrite (SetRecords_unfold p zone records st cur st1 Hget).
    unfold AppendRecords in Happ. rewrite appendLoop_ackLoop in Happ.
    rewrite Happ, Hupd.
    rewrite updateLoop_ackLoop in Hpre.
    rewrite (ackLoop_refused _ pre r post [] st2 out st3 code detail w
                             Hpre Hans Hcode).
    reflexivity.
  - intros records st cur st1 pre r post out st2 w Hget Hdel Hpre Hans.
    rewrite (DeleteRecords_unfold p zone records st cur st1 Hget), Hdel.
    rewrite deleteLoop_ackLoop in Hpre.
    rewrite (ackLoop_refused _ pre r post [] st1 out st2 code detail w
                             Hpre Hans Hcode).
    reflexivity.
Qed.

Lemma refused_acknowledgement_witness :
  fst (AppendRecords (R := Scripted.registrar) Scripted.provider Scripted.zone
         [Scripted.r; Scripted.q]
         (Scripted.start [Scripted.http200 Scripted.okBody;
                          Scripted.http200 Scripted.refusedBody]))
  = Err (RegistrarError 280 "DNS modification error")
  /\ fst (SetRecords (R := Scripted.registrar) Scripted.provider Scripted.zone
            [Scripted.r]
            (Scripted.start [Scripted.http200 Scripted.txtBody;
                             Scripted.http200 Scripted.refusedBody]))
     = Err (RegistrarError 280 "DNS modification error")
  /\ fst (DeleteRecords (R := Scripted.registrar) Scripted.provider
            Scripted.zone [Scripted.r]
            (Scripted.start [Scripted.http200 Scripted.txtBody;
                             Scripted.http200 Scripted.refusedBody]))
     = Err (RegistrarError 280 "DNS modification error").
Proof.
  destruct (refused_acknowledgement_fails_operation
              (R := Scripted.registrar) Scripted.provider Scripted.zone
              280 "DNS modification error" ltac:(lia)) as (HA & HS & HD).
  split; [|split].
  - apply (HA [Scripted.r] Scripted.q []
              (Scripted.start [Scripted.http200 Scripted.okBody;
                               Scripted.http200 Scripted.refusedBody])
              [Scripted.r]
              (Scripted.state
                 [Scripted.http200 Scripted.refusedBody]
                 [addURL Scripted.provider Scripted.zone Scripted.r])
              []).
    + reflexivity.
    + split; [reflexivity|].
      eexists; repeat split; reflexivity.
  - apply (HS [Scripted.r]
              (Scripted.start [Scripted.http200 Scripted.txtBody;
                               Scripted.http200 Scripted.refusedBody])
              [toRecord Scripted.txt]
              (Scripted.state
                 [Scripted.http200 Scripted.refusedBody]
                 [listURL Scripted.provider Scripted.zone])
              []
              (Scripted.state
                 [Scripted.http200 Scripted.refusedBody]
                 [listURL Scripted.provider Scripted.zone])
              [] (setID Scripted.r "7") [] []
              (Scripted.state
                 [Scripted.http200 Scripted.refusedBody]
                 [listURL Scripted.provider Scripted.zone])
              []).
    + reflexivity.
    + reflexivity.
    + reflexivity.
    + reflexivity.
    + split; [reflexivity|].
      eexists; repeat split; reflexivity.
  - apply (HD [Scripted.r]
              (Scripted.start [Scripted.http200 Scripted.txtBody;
                               Scripted.http200 Scripted.refusedBody])
              [toRecord Scripted.txt]
              (Scripted.state
                 [Scripted.http200 Scripted.refusedBody]
                 [listURL Scripted.provider Scripted.zone])
              [] (toRecord Scripted.txt) [] []
              (Scripted.state
                 [Scripted.http200 Scripted.refusedBody]
                 [listURL Scripted.provider Scripted.zone])
              []).
    + reflexivity.
    + reflexivity.
    + reflexivity.
    + split; [reflexivity|].
      eexists; repeat split; reflexivity.
Defined.

(** ** [AppendRecords] *)

(** C5. [AppendRecords] sends the create requests of its records one by one
    in input order. If it succeeds it returns the input list as it is, and
    the requests sent are those of all the records. If it returns an error,
    the records before some record were created and acknowledged, the error
    is the one the request of that record ran into, and the operation ends
    in the state this request left: nothing is sent after it, for the later
    records or to undo the earlier ones. It never ends the process. *)
Theorem AppendRecords_in_order_until_first_failure
        {R : Registrar} (p : Provider) (zone : string)
        (records : list Record_) (st : State) :
  match AppendRecords p zone records st with
  | (Ok out, st') =>
      out = records
      /\ calls st' = (calls st ++ map (addURL p zone) records)%list
  | (Err e, st') =>
      exists pre r post st1,
        records = (pre ++ r :: post)%list
        /\ AppendRecords p zone pre st = (Ok pre, st1)
        /\ calls st1 = (calls st ++ map (addURL p zone) pre)%list
        /\ acknowledged (addURL p zone r) st1 = (Err e, st')
        /\ calls st' =
           (calls st1 ++ if newRequestOk (addURL p zone r)
                         then [addURL p zone r] else [])%list
  | (Fatal, _) => False
  end.
Proof.
  unfold AppendRecords. rewrite appendLoop_ackLoop.
  destruct (ackLoop (addURL p zone) records [] st) as [[out|e|] st'] eqn:H.
  - apply ackLoop_ok in H. exact H.
  - apply ackLoop_err in H.
    destruct H as (pre & r & post & st1 & Hrec & Hpre & Hfail).
    exists pre, r, post, st1.
    rewrite appendLoop_ackLoop.
    split; [exact Hrec|]. split; [exact Hpre|].
    split; [apply ackLoop_ok in Hpre; tauto|].
    split; [exact Hfail|].
    exact (acknowledged_calls _ _ _ _ Hfail).
  - exact (ackLoop_not_fatal _ _ _ _ _ H).
Qed.

(** ** [DeleteRecords] *)

(** A requested record with a match among the current records still in
    the pool takes the first of them: it leaves the pool and goes to the
    end of the queue. *)
Lemma deleteMatch_take zone rs1 r cur before c after :
  d_currentRecords (deleteMatch zone rs1 cur) = (before ++ c :: after)%list ->
  Forall (fun x => matches zone x r = false) before ->
  matches zone c r = true ->
  deleteMatch zone (rs1 ++ [r]) cur
  = {| d_currentRecords := before ++ after;
       d_deleteRecords := d_deleteRecords (deleteMatch zone rs1 cur) ++ [c] |}.
Proof.
  unfold deleteMatch. intros Hpool Hbefore Hc.
  rewrite fold_left_app. cbn [fold_left].
  rewrite deleteStep_firstMatch, Hpool.
  rewrite (firstMatch_middle zone r before c after Hbefore Hc).
  reflexivity.
Qed.

Lemma deleteMatch_pass zone rs1 r cur :
  Forall (fun x => matches zone x r = false)
         (d_currentRecords (deleteMatch zone rs1 cur)) ->
  deleteMatch zone (rs1 ++ [r]) cur = deleteMatch zone rs1 cur.
Proof.
  unfold deleteMatch. intros Hno.
  rewrite fold_left_app. cbn [fold_left].
  apply deleteStep_skip. exact Hno.
Qed.

(** C6. Once the current records [cur] are listed, [DeleteRecords] goes
    through the requested records in order, starting with the whole listing
    as pool and an empty queue. A requested record that matches a current
    record still in the pool takes the first such record: it leaves the
    pool and goes to the end of the queue. A requested record that matches
    none of the current records still in the pool changes nothing: the
    operation runs as if the record had not been requested. So the queue
    holds current records only, each one matched by a requested record, in
    the order of the requests that took them. Requested records enter
    through their type and hostname only. One delete request goes out per
    queued record, in queue order, and a successful operation returns the
    queue itself, that is the current records as the registrar listed them;
    an error comes from the delete request of a queued record, the ones
    before it having been deleted. *)
Theorem DeleteRecords_skips_unmatched_returns_current
        {R : Registrar} (p : Provider) (zone : string)
        (records : list Record_) (st : State)
        (cur : list Record_) (st1 : State) :
  GetRecords p zone st = (Ok cur, st1) ->
  incl (d_deleteRecords (deleteMatch zone records cur)) cur
  /\ Forall (fun c => exists r, In r records /\ matches zone c r = true)
            (d_deleteRecords (deleteMatch zone records cur))
  /\ (forall rs1 r rs2,
         records = (rs1 ++ r :: rs2)%list ->
         Forall (fun c => matches zone c r = false)
                (d_currentRecords (deleteMatch zone rs1 cur)) ->
         DeleteRecords p zone records st
         = DeleteRecords p zone (rs1 ++ rs2) st)
  /\ (forall records',
         Forall2 (sameName zone) records records' ->
         DeleteRecords p zone records' st = DeleteRecords p zone records st)
  /\ match DeleteRecords p zone records st with
     | (Ok out, st') =>
         out = d_deleteRecords (deleteMatch zone records cur)
         /\ calls st' =
            (calls st1
               ++ map (deleteURL p zone)
                      (d_deleteRecords (deleteMatch zone records cur)))%list
     | (Err e, st') =>
         exists pre c post st2,
           d_deleteRecords (deleteMatch zone records cur)
           = (pre ++ c :: post)%list
           /\ deleteLoop p zone pre [] st1 = (Ok pre, st2)
           /\ acknowledged (deleteURL p zone c) st2 = (Err e, st')
     | (Fatal, _) => False
     end
  /\ deleteMatch zone [] cur
     = {| d_currentRecords := cur; d_deleteRecords := [] |}
  /\ (forall rs1 r before c after,
         d_currentRecords (deleteMatch zone rs1 cur)
         = (before ++ c :: after)%list ->
         Forall (fun x => matches zone x r = false) before ->
         matches zone c r = true ->
         deleteMatch zone (rs1 ++ [r]) cur
         = {| d_currentRecords := before ++ after;
              d_deleteRecords :=
                d_deleteRecords (deleteMatch zone rs1 cur) ++ [c] |})
  /\ (forall rs1 r,
         Forall (fun x => matches zone x r = false)
                (d_currentRecords (deleteMatch zone rs1 cur)) ->
         deleteMatch zone (rs1 ++ [r]) cur = deleteMatch zone rs1 cur)
  /\ (forall rs1 rs2 r before c after out st',
         records = (rs1 ++ r :: rs2)%list ->
         d_currentRecords (deleteMatch zone rs1 cur)
         = (before ++ c :: after)%list ->
         Forall (fun x => matches zone x r = false) before ->
         matches zone c r = true ->
         DeleteRecords p zone records st = (Ok out, st') ->
         exists sent1 sent2,
           calls st' =
           (calls st1 ++ sent1 ++ deleteURL p zone c :: sent2)%list
           /\ sent1 = map (deleteURL p zone)
                          (d_deleteRecords (deleteMatch zone rs1 cur))
           /\ In c out).
Proof.
  intros Hget.
  destruct (deleteSteps_binding zone records
              {| d_currentRecords := cur; d_deleteRecords := [] |})
    as (binding & _ & Hperm & Hall & Hqueue).
  fold (deleteMatch zone records cur) in Hperm, Hqueue.
  simpl in Hperm, Hqueue.
  split; [|split; [|split; [|split; [|split; [|split; [|split; [|split]]]]]]].
  - intros c Hc. rewrite Hqueue in Hc.
    apply (Permutation_in c Hperm). apply in_or_app. left. exact Hc.
  - rewrite Hqueue. exact (bound_matched zone records binding Hall).
  - intros rs1 r rs2 -> Hno.
    rewrite !(DeleteRecords_unfold p zone _ st cur st1 Hget).
    rewrite (deleteMatch_skip zone rs1 r rs2 cur Hno). reflexivity.
  - intros records' Hsame.
    rewrite !(DeleteRecords_unfold p zone _ st cur st1 Hget).
    rewrite (deleteMatch_sameName zone records records' cur Hsame).
    reflexivity.
  - rewrite (DeleteRecords_unfold p zone records st cur st1 Hget).
    destruct (ackLoop (deleteURL p zone)
                      (d_deleteRecords (deleteMatch zone records cur)) [] st1)
      as [[out|e|] st'] eqn:H.
    + apply ackLoop_ok in H. exact H.
    + apply ackLoop_err in H.
      destruct H as (pre & c & post & st2 & Hq & Hpre & Hfail).
      exists pre, c, post, st2. rewrite deleteLoop_ackLoop. auto.
    + exact (ackLoop_not_fatal _ _ _ _ _ H).
  - reflexivity.
  - intros rs1 r before c after. apply deleteMatch_take.
  - intros rs1 r. apply deleteMatch_pass.
  - intros rs1 rs2 r before c after out st' -> Hpool Hbefore Hc Hrun.
    rewrite (DeleteRecords_unfold p zone _ st cur st1 Hget) in Hrun.
    apply ackLoop_ok in Hrun. simpl in Hrun. destruct Hrun as (-> & Hcalls).
    destruct (deleteSteps_binding zone rs2 (deleteMatch zone (rs1 ++ [r]) cur))
      as (rest & _ & _ & _ & Hrest).
    assert (Hall2 : deleteMatch zone (rs1 ++ r :: rs2) cur
                    = fold_left (deleteStep zone) rs2
                                (deleteMatch zone (rs1 ++ [r]) cur)).
    { unfold deleteMatch. rewrite !fold_left_app. reflexivity. }
    rewrite <- Hall2 in Hrest.
    rewrite (deleteMatch_take zone rs1 r cur before c after Hpool Hbefore Hc)
      in Hrest.
    cbn [d_deleteRecords] in Hrest.
    exists (map (deleteURL p zone)
                (d_deleteRecords (deleteMatch zone rs1 cur))),
           (map (deleteURL p zone) (bound rest)).
    split; [|split].
    + rewrite Hcalls, Hrest, <- app_assoc, !map_app. reflexivity.
    + reflexivity.
    + rewrite Hrest. apply in_or_app. left. apply in_or_app. right.
      left. reflexivity.
Qed.

Lemma DeleteRecords_witness :
  GetRecords (R := Scripted.registrar) Scripted.provider Scripted.zone
    (Scripted.start [Scripted.http200 Scripted.txtBody;
                     Scripted.http200 Scripted.okBody])
  = (Ok [toRecord Scripted.txt],
     Scripted.state [Scripted.http200 Scripted.okBody]
                    [listURL Scripted.provider Scripted.zone])
  /\ DeleteRecords (R := Scripted.registrar) Scripted.provider Scripted.zone
       [Scripted.r; Scripted.q]
       (Scripted.start [Scripted.http200 Scripted.txtBody;
                        Scripted.http200 Scripted.okBody])
     = DeleteRecords (R := Scripted.registrar) Scripted.provider Scripted.zone
         [Scripted.r]
         (Scripted.start [Scripted.http200 Scripted.txtBody;
                          Scripted.http200 Scripted.okBody])
  /\ deleteMatch Scripted.zone [Scripted.r] [toRecord Scripted.txt]
     = {| d_currentRecords := [];
          d_deleteRecords := [toRecord Scripted.txt] |}
  /\ exists sent1 sent2,
      [listURL Scripted.provider Scripted.zone;
       deleteURL Scripted.provider Scripted.zone (toRecord Scripted.txt)]
      = ([listURL Scripted.provider Scripted.zone]
           ++ sent1
           ++ deleteURL Scripted.provider Scripted.zone
                (toRecord Scripted.txt) :: sent2)%list
      /\ sent1 = map (deleteURL Scripted.provider Scripted.zone) []
      /\ In (toRecord Scripted.txt) [toRecord Scripted.txt].
Proof.
  split; [reflexivity|].
  destruct (DeleteRecords_skips_unmatched_returns_current
              (R := Scripted.registrar) Scripted.provider Scripted.zone
              [Scripted.r; Scripted.q]
              (Scripted.start [Scripted.http200 Scripted.txtBody;
                               Scripted.http200 Scripted.okBody])
              [toRecord Scripted.txt]
              (Scripted.state [Scripted.http200 Scripted.okBody]
                              [listURL Scripted.provider Scripted.zone])
              eq_refl)
    as (_ & _ & Hskip & _ & _ & _ & Htake & _ & Hsent).
  split; [|split].
  - apply (Hskip [Scripted.r] Scripted.q []).
    + reflexivity.
    + vm_compute. constructor.
  - apply (Htake [] Scripted.r [] (toRecord Scripted.txt) []).
    + reflexivity.
    + constructor.
    + reflexivity.
  - apply (Hsent [] [Scripted.q] Scripted.r [] (toRecord Scripted.txt) []
                 [toRecord Scripted.txt]
                 (Scripted.state
                    []
                    [listURL Scripted.provider Scripted.zone;
                     deleteURL Scripted.provider Scripted.zone
                       (toRecord Scripted.txt)])).
    + reflexivity.
    + reflexivity.
    + constructor.
    + reflexivity.
    + reflexivity.
Defined.

(** ** Each current record is used at most once *)

(** C7. The first loop of [SetRecords] and the first loop of
    [DeleteRecords] bind each desired or requested record to at most one
    current record and use no current record twice: there is a binding whose
    current records, together with the pool the loop leaves, are the current
    records of the start up to order, so a record taken from the pool is gone
    for the records that follow. The update list of [SetRecords] is the one
    this binding stands for, and the queue of [DeleteRecords] is the list of
    the bound current records. In particular two desired records without ID,
    of one type and hostname, that find two matching current records [c1]
    and [c2], [c1] first, are bound to [c1] and to [c2] in this order. *)
Theorem matching_uses_each_current_record_once
        (zone : string) (records cur : list Record_) :
  (exists binding,
      List.length binding = List.length records
      /\ Permutation
           (bound binding ++ s_currentRecords (setPartition zone records cur))
           cur
      /\ Forall2 (fun r b => match b with
                             | Some c => ID r = EmptyString /\ matches zone c r = true
                             | None => True
                             end) records binding
      /\ s_updateRecords (setPartition zone records cur)
         = resolve records binding)
  /\ (exists binding,
         List.length binding = List.length records
         /\ Permutation
              (bound binding
                 ++ d_currentRecords (deleteMatch zone records cur))
              cur
         /\ Forall2 (fun r b => match b with
                                | Some c => matches zone c r = true
                                | None => True
                                end) records binding
         /\ d_deleteRecords (deleteMatch zone records cur) = bound binding)
  /\ (forall r1 r2 before c1 mid c2 after,
         records = [r1; r2] ->
         ID r1 = EmptyString -> ID r2 = EmptyString -> sameName zone r1 r2 ->
         cur = (before ++ c1 :: mid ++ c2 :: after)%list ->
         Forall (fun x => matches zone x r1 = false) before ->
         Forall (fun x => matches zone x r1 = false) mid ->
         matches zone c1 r1 = true ->
         matches zone c2 r1 = true ->
         setPartition zone records cur
         = {| s_currentRecords := before ++ mid ++ after;
              s_updateRecords := [setID r1 (ID c1); setID r2 (ID c2)];
              s_appendRecords := [] |}
         /\ deleteMatch zone records cur
            = {| d_currentRecords := before ++ mid ++ after;
                 d_deleteRecords := [c1; c2] |}).
Proof.
  split; [|split].
  - destruct (setSteps_binding zone records
                {| s_currentRecords := cur; s_updateRecords := [];
                   s_appendRecords := [] |})
      as (binding & Hlen & Hperm & Hall & Hupd).
    exists binding. auto.
  - destruct (deleteSteps_binding zone records
                {| d_currentRecords := cur; d_deleteRecords := [] |})
      as (binding & Hlen & Hperm & Hall & Hdel).
    exists binding. auto.
  - intros r1 r2 before c1 mid c2 after -> Hid1 Hid2 (Ht & Hn) ->
           Hbefore Hmid Hc1 Hc2.
    assert (Hfirst : firstMatch zone r1 (before ++ c1 :: mid ++ c2 :: after)
                     = Some (before, c1, (mid ++ c2 :: after)%list))
      by (apply firstMatch_middle; auto).
    assert (Hsecond : firstMatch zone r2 ((before ++ mid) ++ c2 :: after)
                      = Some ((before ++ mid)%list, c2, after)).
    { rewrite <- (firstMatch_same_key zone r1 r2 _ Ht Hn).
      apply firstMatch_middle; auto.
      apply Forall_app; auto. }
    split.
    + unfold setPartition. cbn [fold_left].
      rewrite (setStep_no_ID zone _ r1 Hid1). unfold setScanned.
      cbn [s_currentRecords s_updateRecords s_appendRecords].
      rewrite Hfirst.
      rewrite (setStep_no_ID zone _ r2 Hid2). unfold setScanned.
      cbn [s_currentRecords s_updateRecords s_appendRecords].
      rewrite app_assoc, Hsecond, <- app_assoc. reflexivity.
    + unfold deleteMatch. cbn [fold_left].
      rewrite (deleteStep_firstMatch zone _ r1).
      cbn [d_currentRecords d_deleteRecords]. rewrite Hfirst.
      rewrite (deleteStep_firstMatch zone _ r2).
      cbn [d_currentRecords d_deleteRecords].
      rewrite app_assoc, Hsecond, <- app_assoc. reflexivity.
Qed.

Lemma matching_once_witness :
  setPartition Scripted.zone [Scripted.r; Scripted.r_short]
    [toRecord Scripted.txt; toRecord Scripted.txt2]
  = {| s_currentRecords := [];
       s_updateRecords := [setID Scripted.r "7"; setID Scripted.r_short "8"];
       s_appendRecords := [] |}
  /\ deleteMatch Scripted.zone [Scripted.r; Scripted.r_short]
       [toRecord Scripted.txt; toRecord Scripted.txt2]
     = {| d_currentRecords := [];
          d_deleteRecords := [toRecord Scripted.txt; toRecord Scripted.txt2] |}.
Proof.
  destruct (matching_uses_each_current_record_once
              Scripted.zone [Scripted.r; Scripted.r_short]
              [toRecord Scripted.txt; toRecord Scripted.txt2])
    as (_ & _ & Htwo).
  apply (Htwo Scripted.r Scripted.r_short []
              (toRecord Scripted.txt) [] (toRecord Scripted.txt2) []).
  - reflexivity.
  - reflexivity.
  - reflexivity.
  - split; reflexivity.
  - reflexivity.
  - constructor.
  - constructor.
  - reflexivity.
  - reflexivity.
Defined.

(** ** Names *)

(** C8. The matching condition of [SetRecords] and [DeleteRecords] holds
    exactly when the types are equal and the names are equal after
    [getHostname], which strips the zone suffix and then the trailing dot.
    So both first loops come out the same when desired or requested records
    are replaced by records of the same type and the same hostname
    ([SetRecords] also looks at the ID): the pool left and the queue of
    [DeleteRecords] are equal, and the lists of [SetRecords] agree record by
    record on ID, type and hostname. Under zone "matjes.life" the names
    "_test.matjes.life" and "_test" both normalize to "_test", and records
    of one type that carry them match. *)
Theorem names_compared_after_normalization :
  (forall zone c r,
      matches zone c r = true <->
      Type_ c = Type_ r
      /\ getHostname zone (Name c) = getHostname zone (Name r))
  /\ (forall zone records records' cur,
         Forall2 (sameKey zone) records records' ->
         s_currentRecords (setPartition zone records cur)
         = s_currentRecords (setPartition zone records' cur)
         /\ Forall2 (sameKey zone)
                    (s_updateRecords (setPartition zone records cur))
                    (s_updateRecords (setPartition zone records' cur))
         /\ Forall2 (sameKey zone)
                    (s_appendRecords (setPartition zone records cur))
                    (s_appendRecords (setPartition zone records' cur)))
  /\ (forall zone records records' cur,
         Forall2 (sameName zone) records records' ->
         deleteMatch zone records cur = deleteMatch zone records' cur)
  /\ getHostname "matjes.life" "_test.matjes.life" = "_test"
  /\ getHostname "matjes.life" "_test" = "_test"
  /\ (forall c r,
         Type_ c = Type_ r ->
         Name c = "_test.matjes.life" -> Name r = "_test" ->
         matches "matjes.life" c r = true).
Proof.
  split; [exact matches_iff|].
  split; [exact setPartition_sameKey|].
  split; [exact deleteMatch_sameName|].
  split; [reflexivity|].
  split; [reflexivity|].
  intros c r Ht Hc Hr. apply matches_iff. rewrite Hc, Hr. auto.
Qed.

Lemma names_compared_witness :
  deleteMatch Scripted.zone [Scripted.r] [toRecord Scripted.txt]
  = deleteMatch Scripted.zone [Scripted.r_short] [toRecord Scripted.txt]
  /\ matches "matjes.life" (toRecord Scripted.txt) Scripted.r_short = true.
Proof.
  destruct names_compared_after_normalization
    as (_ & _ & Hdelete & _ & _ & Hmatch).
  split.
  - apply Hdelete. constructor; [|constructor]. split; reflexivity.
  - apply Hmatch; reflexivity.
Defined.

(** C9 (as the code has it). The records a successful [GetRecords] returns
    carry the names of the registrar's reply as decoded, one record per
    [resource_record] and in the same order: [GetRecords] does not
    normalize them. *)
Theorem GetRecords_names_as_listed
        {R : Registrar} (p : Provider) (zone : string)
        (st : State) (out : list Record_) (st' : State) :
  GetRecords p zone st = (Ok out, st') ->
  exists resp resultObj,
    roundTrip (listURL p zone) (world st) = (Some resp, world st')
    /\ unmarshalRecords (BodyBytes resp) = Some resultObj
    /\ map Name out = map raw_Name resultObj
    /\ List.length out = List.length resultObj.
Proof.
  intros H. apply GetRecords_ok in H.
  destruct H as (resp & resultObj & Hrt & _ & Hdec & -> & _).
  exists resp, resultObj.
  rewrite map_map, length_map. auto.
Qed.

Lemma GetRecords_names_witness :
  exists resp resultObj,
    Scripted.serve (listURL Scripted.provider Scripted.zone)
                   [Scripted.http200 Scripted.listBody]
    = (Some resp, [])
    /\ Scripted.records_of (BodyBytes resp) = Some resultObj
    /\ map Name [toRecord Scripted.www] = map raw_Name resultObj
    /\ List.length [toRecord Scripted.www] = List.length resultObj.
Proof.
  apply (GetRecords_names_as_listed
           (R := Scripted.registrar) Scripted.provider Scripted.zone
           (Scripted.start [Scripted.http200 Scripted.listBody])
           [toRecord Scripted.www]
           (Scripted.state [] [listURL Scripted.provider Scripted.zone])).
  reflexivity.
Defined.

(** The registrar lists "www.matjes.life" for the zone "matjes.life";
    [GetRecords] succeeds and returns the record under this very name, zone
    suffix included, whereas its hostname in the zone is "www". So not every
    name returned by a successful [GetRecords] is normalized. *)
Lemma GetRecords_names_not_normalized :
  GetRecords (R := Scripted.registrar) Scripted.provider Scripted.zone
    (Scripted.start [Scripted.http200 Scripted.listBody])
  = (Ok [toRecord Scripted.www],
     Scripted.state [] [listURL Scripted.provider Scripted.zone])
  /\ Name (toRecord Scripted.www) = "www.matjes.life"
  /\ Go.HasSuffix (Name (toRecord Scripted.www)) Scripted.zone = true
  /\ getHostname Scripted.zone (Name (toRecord Scripted.www)) = "www"
  /\ ~ (forall (R : Registrar) p zone st out st',
           GetRecords p zone st = (Ok out, st') ->
           Forall (fun rec => normalized zone (Name rec)) out).
Proof.
  split; [reflexivity|].
  split; [reflexivity|].
  split; [reflexivity|].
  split; [reflexivity|].
  intros Hall.
  specialize (Hall Scripted.registrar Scripted.provider Scripted.zone
                     (Scripted.start [Scripted.http200 Scripted.listBody])
                     [toRecord Scripted.www]
                     (Scripted.state
                        [] [listURL Scripted.provider Scripted.zone])
                     eq_refl).
  inversion Hall as [|rec rest Hn _]; subst.
  vm_compute in Hn. discriminate Hn.
Qed.

(** ** Request URLs *)

(** C10. The request URLs are concatenations of the record's fields as
    they are, so different records can have the same URL: the record
    [r_injected], with no TTL and the value "text&rrttl=3600", and the
    record [r], with the value "text" and a TTL of 3600 seconds, have the
    same create request and the same update request, for every provider and
    zone. The value of the first is read by the registrar as the value and
    the TTL parameter of the second. *)
Theorem request_URL_not_injective :
  exists r1 r2,
    r1 <> r2
    /\ Value r1 = "text&rrttl=3600" /\ TTL r1 = 0
    /\ Value r2 = "text" /\ TTL r2 = 3600 * Go.Second
    /\ forall p zone,
        addURL p zone r1 = addURL p zone r2
        /\ updateURL p zone r1 = updateURL p zone r2.
Proof.
  exists Scripted.r_injected, Scripted.r.
  split; [discriminate|].
  repeat split; reflexivity.
Qed.

(** ** The operations at work *)

(** One current TXT record "_test" with ID 7: [SetRecords] of the record
    [r], given under its full name and without ID, sends one update request
    with ID 7 and hostname "_test", and returns [r] with the ID 7. *)
Example SetRecords_updates_matched_record :
  SetRecords (R := Scripted.registrar) Scripted.provider Scripted.zone
    [Scripted.r]
    (Scripted.start [Scripted.http200 Scripted.txtBody;
                     Scripted.http200 Scripted.okBody])
  = (Ok [setID Scripted.r "7"],
     Scripted.state []
       ["https://www.namesilo.com/api/dnsListRecords?version=1&type=xml&key=token&domain=matjes.life";
        "https://www.namesilo.com/api/dnsUpdateRecord?version=1&type=xml&key=token&domain=matjes.life&rrid=7&rrhost=_test&rrvalue=text&rrttl=3600"]).
Proof. vm_compute. reflexivity. Qed.

(** [AppendRecords] of one TXT record sends one create request and, the
    registrar acknowledging it with code 300, returns the record as given. *)
Example AppendRecords_returns_input :
  AppendRecords (R := Scripted.registrar) Scripted.provider Scripted.zone
    [Scripted.r] (Scripted.start [Scripted.http200 Scripted.okBody])
  = (Ok [Scripted.r],
     Scripted.state []
       ["https://www.namesilo.com/api/dnsAddRecord?version=1&type=xml&key=token&domain=matjes.life&rrtype=TXT&rrhost=_test&rrvalue=text&rrttl=3600"]).
Proof. vm_compute. reflexivity. Qed.

(** The call of the test driver, [DeleteRecords] of [r] and [q], with one
    current TXT record "_test": [q] matches nothing and is skipped, one
    delete request goes out, and the record returned is the registrar's,
    with its ID and its value. *)
Example DeleteRecords_returns_registrar_record :
  DeleteRecords (R := Scripted.registrar) Scripted.provider Scripted.zone
    [Scripted.r; Scripted.q]
    (Scripted.start [Scripted.http200 Scripted.txtBody;
                     Scripted.http200 Scripted.okBody])
  = (Ok [{| ID := "7"; Type_ := "TXT"; Name := "_test.matjes.life";
            Value := "old"; TTL := 3600 * Go.Second; Priority := 0 |}],
     Scripted.state []
       ["https://www.namesilo.com/api/dnsListRecords?version=1&type=xml&key=token&domain=matjes.life";
        "https://www.namesilo.com/api/dnsDeleteRecord?version=1&type=xml&key=token&domain=matjes.life&rrid=7"]).
Proof. vm_compute. reflexivity. Qed.

(** Two current TXT records "_test" and three desired ones: the first two
    are bound to the two current records in listing order; the third finds
    the pool empty and is neither updated nor created. *)
Example setPartition_three_desired_two_current :
  setPartition Scripted.zone [Scripted.r; Scripted.r_short; Scripted.r]
    [toRecord Scripted.txt; toRecord Scripted.txt2]
  = {| s_currentRecords := [];
       s_updateRecords := [setID Scripted.r "7"; setID Scripted.r_short "8"];
       s_appendRecords := [] |}.
Proof. vm_compute. reflexivity. Qed.

(** * Further properties *)

(** ** Strings *)

Lemma length_append (a b : string) :
  String.length (a ++ b) = (String.length a + String.length b)%nat.
Proof. induction a as [|c a IH]; simpl; [|rewrite IH]; reflexivity. Qed.

Lemma append_assoc (a b c : string) : ((a ++ b) ++ c = a ++ (b ++ c))%string.
Proof. induction a as [|x a IH]; simpl; [|rewrite IH]; reflexivity. Qed.

Lemma append_empty_r (a : string) : (a ++ EmptyString)%string = a.
Proof. induction a as [|x a IH]; simpl; [|rewrite IH]; reflexivity. Qed.

Lemma substring_whole (s : string) : substring 0 (String.length s) s = s.
Proof. induction s as [|c s IH]; simpl; [|rewrite IH]; reflexivity. Qed.

Lemma substring_after (pre s : string) (m : nat) :
  substring (String.length pre) m (pre ++ s) = substring 0 m s.
Proof. induction pre as [|c pre IH]; simpl; auto. Qed.

Lemma substring_before (pre s : string) :
  substring 0 (String.length pre) (pre ++ s) = pre.
Proof. induction pre as [|c pre IH]; simpl; [|rewrite IH]; auto.
       destruct s; reflexivity. Qed.

Lemma HasSuffix_append (pre suffix : string) :
  Go.HasSuffix (pre ++ suffix) suffix = true.
Proof.
  unfold Go.HasSuffix. rewrite length_append.
  replace (String.length pre + String.length suffix - String.length suffix)%nat
    with (String.length pre) by lia.
  rewrite substring_after, substring_whole, String.eqb_refl, andb_true_r.
  apply Nat.leb_le. lia.
Qed.

Lemma TrimSuffix_append (pre suffix : string) :
  Go.TrimSuffix (pre ++ suffix) suffix = pre.
Proof.
  unfold Go.TrimSuffix. rewrite HasSuffix_append, length_append.
  replace (String.length pre + String.length suffix - String.length suffix)%nat
    with (String.length pre) by lia.
  apply substring_before.
Qed.

(** Every string splits at every position within it. *)
Lemma substring_split (s : string) :
  forall n, (n <= String.length s)%nat ->
            s = (substring 0 n s ++ substring n (String.length s - n) s)%string.
Proof.
  induction s as [|c s IH]; intros n Hn; simpl in *.
  - destruct n; reflexivity.
  - destruct n as [|n].
    + simpl. rewrite substring_whole. reflexivity.
    + simpl. rewrite <- IH by lia. reflexivity.
Qed.

(** [strings.HasSuffix] holds exactly of the strings that end in the
    suffix. *)
Lemma HasSuffix_iff (s suffix : string) :
  Go.HasSuffix s suffix = true <-> exists pre, s = (pre ++ suffix)%string.
Proof.
  split.
  - unfold Go.HasSuffix. intros H.
    apply andb_true_iff in H. destruct H as (Hlen & Heq).
    apply Nat.leb_le in Hlen. apply String.eqb_eq in Heq.
    exists (substring 0 (String.length s - String.length suffix) s).
    rewrite (substring_split s (String.length s - String.length suffix))
      at 1 by lia.
    f_equal.
    replace (String.length s - (String.length s - String.length suffix))%nat
      with (String.length suffix) by lia.
    exact Heq.
  - intros (pre & ->). apply HasSuffix_append.
Qed.

Lemma lastChar_append (a b : string) :
  b <> EmptyString -> lastChar (a ++ b) = lastChar b.
Proof.
  intros Hb. induction a as [|c a IH]; simpl; auto.
  destruct (a ++ b)%string eqn:E; auto.
  destruct a; simpl in E; [contradiction | discriminate].
Qed.

Lemma lastChar_dot (a : string) : lastChar (a ++ ".") = Some "."%char.
Proof. rewrite lastChar_append by discriminate. reflexivity. Qed.

Lemma lastChar_Some (s : string) (c : ascii) :
  lastChar s = Some c -> exists pre, s = (pre ++ String c EmptyString)%string.
Proof.
  induction s as [|x s IH]; simpl; [discriminate|].
  destruct s as [|y s].
  - intros H; inversion H; subst. exists EmptyString. reflexivity.
  - intros H. destruct (IH H) as (pre & Hpre).
    exists (String x pre). simpl. rewrite <- Hpre. reflexivity.
Qed.

Lemma no_dot_lastChar (d : string) :
  Go.HasSuffix d "." = false -> lastChar d <> Some "."%char.
Proof.
  intros H Hl. apply lastChar_Some in Hl. destruct Hl as (pre & ->).
  rewrite HasSuffix_append in H. discriminate.
Qed.

Lemma TrimSuffix_absent (s suffix : string) :
  Go.HasSuffix s suffix = false -> Go.TrimSuffix s suffix = s.
Proof. unfold Go.TrimSuffix. intros ->. reflexivity. Qed.

(** ** Hostnames and domains *)

(** X1. [getHostname] strips the text of the zone from the end of a name,
    wherever it starts, and then one trailing dot: the name [pre ++ zone]
    becomes [pre] without one trailing dot. So a fully qualified name
    [host.zone] becomes [host], and the zone itself becomes the empty
    hostname. *)
Theorem getHostname_strips_zone_text (zone : string) :
  (forall pre, getHostname zone (pre ++ zone) = Go.TrimSuffix pre ".")
  /\ (forall host, getHostname zone (host ++ "." ++ zone) = host)
  /\ getHostname zone zone = EmptyString.
Proof.
  assert (H : forall pre,
             getHostname zone (pre ++ zone) = Go.TrimSuffix pre ".").
  { intros pre. unfold getHostname. rewrite TrimSuffix_append. reflexivity. }
  split; [exact H|]. split.
  - intros host. rewrite <- append_assoc, H. apply TrimSuffix_append.
  - apply (H EmptyString).
Qed.

(** X2. The zone may be written with or without its trailing dot, and the
    domain of the requests is the same, but names are normalized against
    the zone as written. With the zone written [d] (not empty, no trailing
    dot), a name [host.d.] loses its dot only; with the zone written [d.],
    a name [host.d] is left as it is. In both cases the zone stays in the
    hostname. *)
Theorem getHostname_zone_spelling (d host : string) :
  d <> EmptyString ->
  Go.HasSuffix d "." = false ->
  getDomain (d ++ ".") = d
  /\ getDomain d = d
  /\ getHostname d (host ++ "." ++ d ++ ".") = (host ++ "." ++ d)%string
  /\ getHostname (d ++ ".") (host ++ "." ++ d) = (host ++ "." ++ d)%string.
Proof.
  intros Hd Hdot.
  assert (Hlast : lastChar d <> Some "."%char) by (apply no_dot_lastChar; auto).
  split; [apply TrimSuffix_append|].
  split; [apply TrimSuffix_absent; exact Hdot|].
  split.
  - unfold getHostname.
    assert (Hno : Go.HasSuffix (host ++ "." ++ d ++ ".") d = false).
    { destruct (Go.HasSuffix (host ++ "." ++ d ++ ".") d) eqn:E; auto.
      apply HasSuffix_iff in E. destruct E as (pre & E).
      exfalso. apply Hlast.
      rewrite <- (lastChar_append pre d Hd), <- E.
      rewrite <- !append_assoc. apply lastChar_dot. }
    rewrite (TrimSuffix_absent _ _ Hno).
    rewrite <- !append_assoc. rewrite TrimSuffix_append.
    reflexivity.
  - unfold getHostname.
    assert (Hname : lastChar (host ++ "." ++ d) <> Some "."%char).
    { rewrite <- append_assoc, lastChar_append by exact Hd. exact Hlast. }
    assert (Hno : Go.HasSuffix (host ++ "." ++ d) (d ++ ".") = false).
    { destruct (Go.HasSuffix (host ++ "." ++ d) (d ++ ".")) eqn:E; auto.
      apply HasSuffix_iff in E. destruct E as (pre & E).
      exfalso. apply Hname. rewrite E, <- append_assoc. apply lastChar_dot. }
    rewrite (TrimSuffix_absent _ _ Hno).
    apply TrimSuffix_absent.
    destruct (Go.HasSuffix (host ++ "." ++ d) ".") eqn:E; auto.
    apply HasSuffix_iff in E. destruct E as (pre & E).
    exfalso. apply Hname. rewrite E. apply lastChar_dot.
Qed.

Lemma getHostname_zone_spelling_witness :
  getDomain "matjes.life." = "matjes.life"
  /\ getDomain "matjes.life" = "matjes.life"
  /\ getHostname "matjes.life" "www.matjes.life." = "www.matjes.life"
  /\ getHostname "matjes.life." "www.matjes.life" = "www.matjes.life".
Proof.
  apply (getHostname_zone_spelling "matjes.life" "www").
  - discriminate.
  - reflexivity.
Defined.

(** ** The list request *)

(** X3. [GetRecords] sends the list request of the zone once if
    [http.NewRequest] accepts its URL, and nothing otherwise, whatever comes
    back. It ends the process exactly when the request is sent, answered
    with status 200, the body is read, and the body does not decode. *)
Theorem GetRecords_one_request
        {R : Registrar} (p : Provider) (zone : string) (st : State) :
  calls (snd (GetRecords p zone st))
  = (calls st ++ if newRequestOk (listURL p zone)
                 then [listURL p zone] else [])%list
  /\ (fst (GetRecords p zone st) = Fatal <->
      newRequestOk (listURL p zone) = true
      /\ exists resp w,
          roundTrip (listURL p zone) (world st) = (Some resp, w)
          /\ StatusCode resp = 200
          /\ BodyErr resp = false
          /\ unmarshalRecords (BodyBytes resp) = None).
Proof.
  unfold GetRecords, bind, newRequest, clientDo, ret, fail, fatal.
  destruct (newRequestOk (listURL p zone)); simpl.
  - destruct (roundTrip (listURL p zone) (world st)) as [[resp|] w]; simpl.
    + destruct (StatusCode resp =? 200) eqn:Hs; simpl.
      * apply Z.eqb_eq in Hs.
        destruct (BodyErr resp) eqn:Hb; simpl.
        -- split; [reflexivity|]. split; [discriminate|].
           intros (_ & resp' & w' & E & _ & Hb' & _).
           inversion E; subst. congruence.
        -- destruct (unmarshalRecords (BodyBytes resp)) eqn:Hd; simpl.
           ++ split; [reflexivity|]. split; [discriminate|].
              intros (_ & resp' & w' & E & _ & _ & Hd').
              inversion E; subst. congruence.
           ++ split; [reflexivity|]. split; auto.
              intros _. split; auto. exists resp, w. auto.
      * apply Z.eqb_neq in Hs.
        split; [reflexivity|]. split; [discriminate|].
        intros (_ & resp' & w' & E & Hs' & _).
        inversion E; subst. contradiction.
    + split; [reflexivity|]. split; [discriminate|].
      intros (_ & resp' & w' & E & _). discriminate.
  - rewrite app_nil_r. split; [reflexivity|].
    split; [discriminate|]. intros (H & _). discriminate.
Qed.

Lemma GetRecords_one_request_witness :
  fst (GetRecords (R := Scripted.registrar) Scripted.provider Scripted.zone
         (Scripted.start [Scripted.http200 "<html>"]))
  = Fatal.
Proof.
  apply (GetRecords_one_request
           (R := Scripted.registrar) Scripted.provider Scripted.zone
           (Scripted.start [Scripted.http200 "<html>"])).
  split; [reflexivity|].
  eexists; eexists. repeat split; reflexivity.
Defined.

(** X4. A response with a status other than 200 makes [GetRecords] return
    the status error whether or not its body could be read, since the body
    is read with the error ignored. The request loops read the body first: a
    response whose body cannot be read makes them return the read error
    whatever the status. *)
Theorem status_and_body_precedence {R : Registrar} :
  (forall p zone st resp w,
      newRequestOk (listURL p zone) = true ->
      roundTrip (listURL p zone) (world st) = (Some resp, w) ->
      StatusCode resp <> 200 ->
      fst (GetRecords p zone st)
      = Err (HTTPStatusError (StatusCode resp) (BodyBytes resp)))
  /\ (forall url st resp w,
         newRequestOk url = true ->
         roundTrip url (world st) = (Some resp, w) ->
         BodyErr resp = true ->
         fst (acknowledged url st) = Err TransportError).
Proof.
  split.
  - intros p zone st resp w Hreq Hrt Hs.
    unfold GetRecords, bind, newRequest, clientDo, ret, fail.
    rewrite Hreq, Hrt. apply Z.eqb_neq in Hs. rewrite Hs. reflexivity.
  - intros url st resp w Hreq Hrt Hb.
    unfold acknowledged, bind, newRequest, clientDo, ret, fail.
    rewrite Hreq, Hrt, Hb. reflexivity.
Qed.

Lemma status_and_body_precedence_witness :
  fst (GetRecords (R := Scripted.registrar) Scripted.provider Scripted.zone
         (Scripted.start
            [Some {| StatusCode := 500; BodyBytes := "half";
                     BodyErr := true |}]))
  = Err (HTTPStatusError 500 "half")
  /\ fst (acknowledged (R := Scripted.registrar)
            (addURL Scripted.provider Scripted.zone Scripted.r)
            (Scripted.start
               [Some {| StatusCode := 500; BodyBytes := "half";
                        BodyErr := true |}]))
     = Err TransportError.
Proof.
  destruct (status_and_body_precedence (R := Scripted.registrar))
    as (Hlist & Hack).
  split.
  - apply (Hlist Scripted.provider Scripted.zone
                 (Scripted.start
                    [Some {| StatusCode := 500; BodyBytes := "half";
                             BodyErr := true |}])
                 {| StatusCode := 500; BodyBytes := "half"; BodyErr := true |}
                 []).
    + reflexivity.
    + reflexivity.
    + simpl. lia.
  - apply (Hack (addURL Scripted.provider Scripted.zone Scripted.r)
                (Scripted.start
                   [Some {| StatusCode := 500; BodyBytes := "half";
                            BodyErr := true |}])
                {| StatusCode := 500; BodyBytes := "half"; BodyErr := true |}
                []).
    + reflexivity.
    + reflexivity.
    + reflexivity.
Defined.

(** X5. A request of the loops of [AppendRecords], [SetRecords] and
    [DeleteRecords] succeeds exactly when [http.NewRequest] accepts it, the
    registrar answers with status 200, the body is read and decodes, and
    the acknowledgement code is 300; the request is then in the trace. *)
Theorem acknowledged_iff_code_300
        {R : Registrar} (url : string) (st st' : State) :
  acknowledged url st = (Ok tt, st') <->
  (exists detail, answers url st 300 detail (world st'))
  /\ calls st' = (calls st ++ [url])%list.
Proof.
  split.
  - intros H. split; [|exact (acknowledged_ok_calls _ _ _ _ H)].
    revert H. unfold acknowledged, bind, newRequest, clientDo, ret, fail.
    unfold answers.
    destruct (newRequestOk url); [|discriminate].
    destruct (roundTrip url (world st)) as [[resp|] w]; [|discriminate].
    destruct (BodyErr resp) eqn:Hb; [discriminate|].
    destruct (StatusCode resp =? 200) eqn:Hs; simpl; [|discriminate].
    destruct (unmarshalReply (BodyBytes resp)) as [[code detail]|] eqn:Hd;
      [|discriminate].
    destruct (code =? 300) eqn:Hc; simpl; [|discriminate].
    intros H; inversion H; subst; simpl.
    apply Z.eqb_eq in Hs, Hc. subst code.
    exists detail. split; auto. exists resp. auto.
  - intros ((detail & Hans) & Hcalls).
    rewrite (acknowledged_answer _ _ _ _ _ Hans). simpl.
    destruct st' as [w' c']; simpl in *. subst c'. reflexivity.
Qed.

Lemma acknowledged_iff_code_300_witness :
  acknowledged (R := Scripted.registrar)
    (addURL Scripted.provider Scripted.zone Scripted.r)
    (Scripted.start [Scripted.http200 Scripted.okBody])
  = (Ok tt,
     Scripted.state [] [addURL Scripted.provider Scripted.zone Scripted.r]).
Proof.
  apply (acknowledged_iff_code_300 (R := Scripted.registrar)).
  split; [|reflexivity].
  exists "success". split; [reflexivity|].
  eexists. repeat split; reflexivity.
Defined.

(** ** Time to live *)

Lemma wrap64_small (z : Z) :
  - 2 ^ 63 <= z < 2 ^ 63 -> Go.wrap64 z = z.
Proof.
  intros H. unfold Go.wrap64. rewrite Z.mod_small; lia.
Qed.

(** X6. A TTL listed by the registrar, of up to 9223372036 seconds either
    way, becomes that many seconds as a duration, and a request built from
    the listed record carries the same number of seconds again, or no TTL
    when it is 0. *)
Theorem listed_TTL_round_trip (raw : RawRecord) :
  - 9223372036 <= raw_TTL raw <= 9223372036 ->
  TTL (toRecord raw) = raw_TTL raw * Go.Second
  /\ rrttl (toRecord raw)
     = if raw_TTL raw =? 0 then EmptyString
       else ("&rrttl=" ++ Go.fmt_d (raw_TTL raw))%string.
Proof.
  intros H.
  assert (Ht : TTL (toRecord raw) = raw_TTL raw * Go.Second).
  { simpl. apply wrap64_small. unfold Go.Second. lia. }
  split; [exact Ht|].
  unfold rrttl. rewrite Ht.
  destruct (Z.eqb_spec (raw_TTL raw) 0) as [E|E].
  - rewrite E. reflexivity.
  - destruct (Z.eqb_spec (raw_TTL raw * Go.Second) 0) as [E'|E'].
    + unfold Go.Second in E'. lia.
    + rewrite Z.quot_mul by (unfold Go.Second; lia). reflexivity.
Qed.

Lemma listed_TTL_round_trip_witness :
  TTL (toRecord Scripted.txt2) = 7207 * Go.Second
  /\ rrttl (toRecord Scripted.txt2) = "&rrttl=7207".
Proof.
  apply (listed_TTL_round_trip Scripted.txt2). simpl. lia.
Defined.

(** X7. A TTL that is not zero but shorter than a second, either way, is
    sent as a TTL of 0 seconds. *)
Theorem rrttl_below_a_second (record : Record_) :
  TTL record <> 0 ->
  - Go.Second < TTL record < Go.Second ->
  rrttl record = "&rrttl=0".
Proof.
  intros Hz H. unfold rrttl.
  destruct (Z.eqb_spec (TTL record) 0); [contradiction|].
  assert (Hq : Z.quot (TTL record) Go.Second = 0).
  { apply Z.quot_small_iff; [unfold Go.Second; lia|].
    unfold Go.Second in *. lia. }
  rewrite Hq. reflexivity.
Qed.

Lemma rrttl_below_a_second_witness :
  rrttl {| ID := "7"; Type_ := "TXT"; Name := "_test"; Value := "text";
           TTL := 500000000; Priority := 0 |}
  = "&rrttl=0".
Proof.
  apply rrttl_below_a_second; simpl; unfold Go.Second; lia.
Defined.

(** ** The first loop of [SetRecords], record by record *)

Lemma setID_own (r : Record_) : setID r (ID r) = r.
Proof. destruct r; reflexivity. Qed.

(** The four ways a round of the first loop of [SetRecords] can go. *)
Lemma setStep_cases zone s r :
  (ID r <> EmptyString
   /\ setStep zone s r
      = {| s_currentRecords := s_currentRecords s;
           s_updateRecords := s_updateRecords s ++ [r];
           s_appendRecords := s_appendRecords s |})
  \/ (ID r = EmptyString
      /\ exists before c after,
          s_currentRecords s = (before ++ c :: after)%list
          /\ matches zone c r = true
          /\ setStep zone s r
             = {| s_currentRecords := before ++ after;
                  s_updateRecords := s_updateRecords s ++ [setID r (ID c)];
                  s_appendRecords := s_appendRecords s |})
  \/ (ID r = EmptyString
      /\ s_currentRecords s = []
      /\ setStep zone s r = s)
  \/ (ID r = EmptyString
      /\ s_currentRecords s <> []
      /\ Forall (fun c => matches zone c r = false) (s_currentRecords s)
      /\ setStep zone s r
         = {| s_currentRecords := s_currentRecords s;
              s_updateRecords := s_updateRecords s;
              s_appendRecords := s_appendRecords s ++ [r] |}).
Proof.
  destruct (String.eqb_spec (ID r) EmptyString) as [Hid|Hid].
  - right. rewrite (setStep_no_ID zone s r Hid). unfold setScanned.
    destruct (firstMatch zone r (s_currentRecords s))
      as [[[before c] after]|] eqn:Hf.
    + left. apply firstMatch_Some in Hf. destruct Hf as (Hpool & Hc & _).
      split; auto. exists before, c, after. auto.
    + right. apply firstMatch_None in Hf.
      destruct (s_currentRecords s) as [|c0 pool] eqn:Hpool.
      * left. auto.
      * right. repeat split; auto. discriminate.
  - left. split; auto. apply setStep_with_ID. exact Hid.
Qed.

Lemma incl_nil_eq (A : Type) (l : list A) : incl l [] -> l = [].
Proof.
  destruct l as [|x l]; auto. intros H. destruct (H x). left. reflexivity.
Qed.

Lemma incl_remove_middle (A : Type) (before after : list A) (c : A) :
  incl (before ++ after) (before ++ c :: after).
Proof.
  intros x Hx. apply in_app_or in Hx. apply in_or_app.
  destruct Hx; [left | right; right]; auto.
Qed.

Lemma setSteps_accounts zone records :
  forall s,
    (List.length (s_updateRecords (fold_left (setStep zone) records s))
     + List.length (s_appendRecords (fold_left (setStep zone) records s))
     <= List.length (s_updateRecords s) + List.length (s_appendRecords s)
        + List.length records)%nat
    /\ (s_currentRecords (fold_left (setStep zone) records s) <> [] ->
        (List.length (s_updateRecords (fold_left (setStep zone) records s))
         + List.length (s_appendRecords (fold_left (setStep zone) records s))
         = List.length (s_updateRecords s) + List.length (s_appendRecords s)
           + List.length records)%nat)
    /\ incl (s_currentRecords (fold_left (setStep zone) records s))
            (s_currentRecords s)
    /\ (exists created,
           s_appendRecords (fold_left (setStep zone) records s)
           = (s_appendRecords s ++ created)%list
           /\ Forall (fun r =>
                        In r records /\ ID r = EmptyString
                        /\ Forall (fun c => matches zone c r = false)
                                  (s_currentRecords
                                     (fold_left (setStep zone) records s)))
                     created)
    /\ (exists updated,
           s_updateRecords (fold_left (setStep zone) records s)
           = (s_updateRecords s ++ updated)%list
           /\ Forall (fun u => exists r, In r records /\ u = setID r (ID u))
                     updated).
Proof.
  induction records as [|r records IH]; intros s.
  - simpl. repeat split; try lia; try apply incl_refl.
    + exists []. rewrite app_nil_r. auto.
    + exists []. rewrite app_nil_r. auto.
  - cbn [fold_left].
    destruct (IH (setStep zone s r))
      as (Hle & Heq & Hincl & (created & Hc & Hcreated)
          & (updated & Hu & Hupdated)).
    assert (Hcreated' :
              Forall (fun r0 =>
                        In r0 (r :: records) /\ ID r0 = EmptyString
                        /\ Forall (fun c => matches zone c r0 = false)
                                  (s_currentRecords
                                     (fold_left (setStep zone) records
                                                (setStep zone s r))))
                     created).
    { eapply Forall_impl; [|exact Hcreated].
      intros r0 (Hin & H0). split; [right|]; auto. }
    assert (Hupdated' :
              Forall (fun u => exists r0,
                          In r0 (r :: records) /\ u = setID r0 (ID u))
                     updated).
    { eapply Forall_impl; [|exact Hupdated].
      intros u (r0 & Hin & H0). exists r0. split; [right|]; auto. }
    cbn [List.length].
    destruct (setStep_cases zone s r)
      as [(Hid & Hs) | [(Hid & before & c & after & Hpool & Hm & Hs)
                       | [(Hid & Hpool & Hs) | (Hid & Hpool & Hno & Hs)]]];
      rewrite Hs in *; cbn [s_currentRecords s_updateRecords s_appendRecords]
        in *.
    + rewrite length_app in Hle, Heq. simpl in Hle, Heq.
      split; [lia|]. split; [intros H; specialize (Heq H); lia|].
      split; [exact Hincl|]. split.
      * exists created. auto.
      * exists (r :: updated). rewrite Hu, <- app_assoc. split; auto.
        constructor; auto.
        exists r. split; [left; reflexivity | symmetry; apply setID_own].
    + rewrite length_app in Hle, Heq. simpl in Hle, Heq.
      split; [lia|]. split; [intros H; specialize (Heq H); lia|].
      split.
      * rewrite Hpool. eapply incl_tran; [exact Hincl|].
        apply incl_remove_middle.
      * split.
        -- exists created. auto.
        -- exists (setID r (ID c) :: updated).
           rewrite Hu, <- app_assoc. split; auto.
           constructor; auto.
           exists r. split; [left; reflexivity | reflexivity].
    + split; [lia|]. split.
      * intros H. exfalso. apply H. apply incl_nil_eq.
        rewrite <- Hpool. exact Hincl.
      * split; [exact Hincl|]. split.
        -- exists created. auto.
        -- exists updated. auto.
    + rewrite length_app in Hle, Heq. simpl in Hle, Heq.
      split; [lia|]. split; [intros H; specialize (Heq H); lia|].
      split; [exact Hincl|]. split.
      * exists (r :: created). rewrite Hc, <- app_assoc. split; auto.
        constructor; auto.
        split; [left; reflexivity|]. split; auto.
        apply (incl_Forall Hincl). exact Hno.
      * exists updated. auto.
Qed.

(** X8. The first loop of [SetRecords] puts every desired record in at
    most one of its two lists, and in exactly one as long as a current
    record is left over at the end. A record queued for creation is a
    desired record, has no ID, and matches none of the current records
    left over; a record queued for update is a desired record under some
    ID, with its type, name, value, TTL and priority untouched. The pool
    only loses records. *)
Theorem setPartition_accounts (zone : string) (records cur : list Record_) :
  (List.length (s_updateRecords (setPartition zone records cur))
   + List.length (s_appendRecords (setPartition zone records cur))
   <= List.length records)%nat
  /\ (s_currentRecords (setPartition zone records cur) <> [] ->
      (List.length (s_updateRecords (setPartition zone records cur))
       + List.length (s_appendRecords (setPartition zone records cur))
       = List.length records)%nat)
  /\ incl (s_currentRecords (setPartition zone records cur)) cur
  /\ Forall (fun r =>
               In r records /\ ID r = EmptyString
               /\ Forall (fun c => matches zone c r = false)
                         (s_currentRecords (setPartition zone records cur)))
            (s_appendRecords (setPartition zone records cur))
  /\ Forall (fun u => exists r, In r records /\ u = setID r (ID u))
            (s_updateRecords (setPartition zone records cur)).
Proof.
  unfold setPartition.
  destruct (setSteps_accounts zone records
              {| s_currentRecords := cur; s_updateRecords := [];
                 s_appendRecords := [] |})
    as (Hle & Heq & Hincl & (created & Hc & Hcreated)
        & (updated & Hu & Hupdated)).
  simpl in *. rewrite Hc, Hu.
  repeat split; auto.
  - rewrite <- Hc, <- Hu. exact Hle.
  - rewrite <- Hc, <- Hu. exact Heq.
Qed.

Lemma setPartition_accounts_witness :
  (List.length
     (s_updateRecords
        (setPartition Scripted.zone [Scripted.r; Scripted.q]
                      [toRecord Scripted.txt; toRecord Scripted.www]))
   + List.length
       (s_appendRecords
          (setPartition Scripted.zone [Scripted.r; Scripted.q]
                        [toRecord Scripted.txt; toRecord Scripted.www]))
   = 2)%nat.
Proof.
  apply (setPartition_accounts Scripted.zone [Scripted.r; Scripted.q]
           [toRecord Scripted.txt; toRecord Scripted.www]).
  vm_compute. discriminate.
Defined.

(** ** The requests of an operation *)

(** Whatever the outcome, the requests a loop has sent are those of its
    first records, in order. *)
Lemma ackLoop_calls {R : Registrar} url records :
  forall done st o st',
    ackLoop url records done st = (o, st') ->
    exists n,
      (n <= List.length records)%nat
      /\ calls st' = (calls st ++ firstn n (map url records))%list.
Proof.
  induction records as [|r records IH]; intros done st o st'; simpl.
  - unfold ret. intros H; inversion H; subst.
    exists 0%nat. rewrite app_nil_r. auto.
  - unfold bind.
    destruct (acknowledged (url r) st) as [[u|e|] st1] eqn:Hack.
    + intros H. apply IH in H. destruct H as (n & Hn & Hcalls).
      exists (S n). split; [lia|].
      rewrite Hcalls, (acknowledged_ok_calls _ _ _ _ Hack), <- app_assoc.
      reflexivity.
    + intros H; inversion H; subst.
      rewrite (acknowledged_calls _ _ _ _ Hack).
      destruct (newRequestOk (url r)).
      * exists 1%nat. split; [lia | reflexivity].
      * exists 0%nat. split; [lia | reflexivity].
    + exfalso. exact (acknowledged_not_fatal _ _ _ Hack).
Qed.

Lemma firstn_within (A : Type) (n : nat) (l1 l2 : list A) :
  (n <= List.length l1)%nat -> firstn n (l1 ++ l2) = firstn n l1.
Proof.
  intros H. rewrite firstn_app.
  replace (n - List.length l1)%nat with 0%nat by lia.
  simpl. apply app_nil_r.
Qed.

Lemma firstn_beyond (A : Type) (n : nat) (l1 l2 : list A) :
  (l1 ++ firstn n l2)%list = firstn (List.length l1 + n) (l1 ++ l2).
Proof.
  rewrite firstn_app.
  replace (List.length l1 + n - List.length l1)%nat with n by lia.
  f_equal. symmetry. apply firstn_all2. lia.
Qed.

(** X9. After the list request, [SetRecords] sends the create requests of
    all the records queued for creation, in order, and only then the update
    requests of the records queued for update, in order. When it succeeds
    all of them were sent; when it returns an error, the requests sent
    are a beginning of this sequence; it ends the process at no point after
    the listing. *)
Theorem SetRecords_request_order
        {R : Registrar} (p : Provider) (zone : string)
        (records : list Record_) (st : State)
        (cur : list Record_) (st1 : State) :
  GetRecords p zone st = (Ok cur, st1) ->
  match SetRecords p zone records st with
  | (Ok out, st') =>
      calls st' =
      (calls st1
         ++ map (addURL p zone) (s_appendRecords (setPartition zone records cur))
         ++ map (updateURL p zone)
                (s_updateRecords (setPartition zone records cur)))%list
  | (Err e, st') =>
      exists n,
        calls st' =
        (calls st1
           ++ firstn n
                (map (addURL p zone)
                     (s_appendRecords (setPartition zone records cur))
                   ++ map (updateURL p zone)
                          (s_updateRecords (setPartition zone records cur))))%list
  | (Fatal, _) => False
  end.
Proof.
  intros Hget. rewrite (SetRecords_unfold p zone records st cur st1 Hget).
  destruct (ackLoop (addURL p zone)
                    (s_appendRecords (setPartition zone records cur)) [] st1)
    as [[appended|e|] st2] eqn:Ha.
  - apply ackLoop_ok in Ha. destruct Ha as (_ & Hcalls2).
    destruct (ackLoop (updateURL p zone)
                      (s_updateRecords (setPartition zone records cur)) [] st2)
      as [[out|e|] st'] eqn:Hu.
    + apply ackLoop_ok in Hu. destruct Hu as (_ & Hcalls).
      rewrite Hcalls, Hcalls2, <- app_assoc. reflexivity.
    + apply ackLoop_calls in Hu. destruct Hu as (n & _ & Hcalls).
      exists (List.length
                (map (addURL p zone)
                     (s_appendRecords (setPartition zone records cur))) + n)%nat.
      rewrite Hcalls, Hcalls2, <- app_assoc, firstn_beyond. reflexivity.
    + exact (ackLoop_not_fatal _ _ _ _ _ Hu).
  - apply ackLoop_calls in Ha. destruct Ha as (n & Hn & Hcalls).
    exists n. rewrite Hcalls, firstn_within; [reflexivity|].
    rewrite length_map. exact Hn.
  - exact (ackLoop_not_fatal _ _ _ _ _ Ha).
Qed.

Lemma SetRecords_request_order_witness :
  calls (snd (SetRecords (R := Scripted.registrar) Scripted.provider
                Scripted.zone [Scripted.q; Scripted.r]
                (Scripted.start [Scripted.http200 Scripted.txtBody;
                                 Scripted.http200 Scripted.okBody;
                                 Scripted.http200 Scripted.okBody])))
  = [listURL Scripted.provider Scripted.zone;
     addURL Scripted.provider Scripted.zone Scripted.q;
     updateURL Scripted.provider Scripted.zone (setID Scripted.r "7")].
Proof.
  exact (SetRecords_request_order
           (R := Scripted.registrar) Scripted.provider Scripted.zone
           [Scripted.q; Scripted.r]
           (Scripted.start [Scripted.http200 Scripted.txtBody;
                            Scripted.http200 Scripted.okBody;
                            Scripted.http200 Scripted.okBody])
           [toRecord Scripted.txt]
           (Scripted.state [Scripted.http200 Scripted.okBody;
                            Scripted.http200 Scripted.okBody]
                           [listURL Scripted.provider Scripted.zone])
           eq_refl).
Defined.

(** ** Desired records that carry an ID *)

Lemma setSteps_with_IDs zone records :
  Forall (fun r => ID r <> EmptyString) records ->
  forall s,
    fold_left (setStep zone) records s
    = {| s_currentRecords := s_currentRecords s;
         s_updateRecords := s_updateRecords s ++ records;
         s_appendRecords := s_appendRecords s |}.
Proof.
  induction 1 as [|r records Hr _ IH]; intros s; simpl.
  - rewrite app_nil_r. destruct s; reflexivity.
  - rewrite IH, (setStep_with_ID zone s r Hr). simpl.
    rewrite <- app_assoc. reflexivity.
Qed.

(** X10. When every desired record carries an ID, [SetRecords] matches
    nothing: the current records are listed but not looked at, no record is
    created, and one update request per desired record goes out in input
    order under the ID given, whether or not the registrar listed it. A
    successful call returns the desired records as given. *)
Theorem SetRecords_with_IDs
        {R : Registrar} (p : Provider) (zone : string)
        (records : list Record_) (st : State)
        (cur : list Record_) (st1 : State) :
  Forall (fun r => ID r <> EmptyString) records ->
  GetRecords p zone st = (Ok cur, st1) ->
  setPartition zone records cur
  = {| s_currentRecords := cur; s_updateRecords := records;
       s_appendRecords := [] |}
  /\ SetRecords p zone records st = updateLoop p zone records [] st1
  /\ (forall out st',
         SetRecords p zone records st = (Ok out, st') ->
         out = records
         /\ calls st' = (calls st1 ++ map (updateURL p zone) records)%list).
Proof.
  intros Hids Hget.
  assert (Hpart : setPartition zone records cur
                  = {| s_currentRecords := cur; s_updateRecords := records;
                       s_appendRecords := [] |}).
  { unfold setPartition. rewrite (setSteps_with_IDs zone records Hids).
    reflexivity. }
  assert (Hset : SetRecords p zone records st
                 = updateLoop p zone records [] st1).
  { rewrite (SetRecords_unfold p zone records st cur st1 Hget), Hpart.
    simpl. rewrite updateLoop_ackLoop. reflexivity. }
  split; [exact Hpart|]. split; [exact Hset|].
  intros out st' H. rewrite Hset, updateLoop_ackLoop in H.
  apply ackLoop_ok in H. exact H.
Qed.

Lemma SetRecords_with_IDs_witness :
  SetRecords (R := Scripted.registrar) Scripted.provider Scripted.zone
    [setID Scripted.q "99"]
    (Scripted.start [Scripted.http200 Scripted.txtBody;
                     Scripted.http200 Scripted.okBody])
  = updateLoop (R := Scripted.registrar) Scripted.provider Scripted.zone
      [setID Scripted.q "99"] []
      (Scripted.state [Scripted.http200 Scripted.okBody]
                      [listURL Scripted.provider Scripted.zone]).
Proof.
  apply (SetRecords_with_IDs
           (R := Scripted.registrar) Scripted.provider Scripted.zone
           [setID Scripted.q "99"]
           (Scripted.start [Scripted.http200 Scripted.txtBody;
                            Scripted.http200 Scripted.okBody])
           [toRecord Scripted.txt]).
  - constructor; [discriminate | constructor].
  - reflexivity.
Defined.

(** X11. A desired record that carries an ID leaves the current record of
    that ID in the pool, so a later desired record without ID can still be
    matched with it: of two desired records, the first with the ID of the
    current record [c] and the second without ID and matching [c] first,
    both are queued for update under the ID of [c]. *)
Theorem record_with_ID_leaves_pool
        (zone : string) (r1 r2 : Record_)
        (before : list Record_) (c : Record_) (after : list Record_) :
  ID r1 <> EmptyString ->
  ID r1 = ID c ->
  ID r2 = EmptyString ->
  Forall (fun x => matches zone x r2 = false) before ->
  matches zone c r2 = true ->
  setPartition zone [r1; r2] (before ++ c :: after)
  = {| s_currentRecords := before ++ after;
       s_updateRecords := [r1; setID r2 (ID c)];
       s_appendRecords := [] |}
  /\ map ID (s_updateRecords
               (setPartition zone [r1; r2] (before ++ c :: after)))
     = [ID c; ID c].
Proof.
  intros Hid1 Hsame Hid2 Hbefore Hc.
  assert (Hpart : setPartition zone [r1; r2] (before ++ c :: after)
                  = {| s_currentRecords := before ++ after;
                       s_updateRecords := [r1; setID r2 (ID c)];
                       s_appendRecords := [] |}).
  { unfold setPartition. cbn [fold_left].
    rewrite (setStep_with_ID zone _ r1 Hid1).
    cbn [s_currentRecords s_updateRecords s_appendRecords].
    rewrite (setStep_no_ID zone _ r2 Hid2). unfold setScanned.
    cbn [s_currentRecords s_updateRecords s_appendRecords].
    rewrite (firstMatch_middle zone r2 before c after Hbefore Hc).
    reflexivity. }
  split; [exact Hpart|].
  rewrite Hpart. simpl. rewrite Hsame. reflexivity.
Qed.

Lemma record_with_ID_leaves_pool_witness :
  map ID (s_updateRecords
            (setPartition Scripted.zone
               [setID Scripted.r "7"; Scripted.r_short]
               ([] ++ toRecord Scripted.txt :: [])))
  = ["7"; "7"].
Proof.
  apply (record_with_ID_leaves_pool Scripted.zone
           (setID Scripted.r "7") Scripted.r_short
           [] (toRecord Scripted.txt) []).
  - discriminate.
  - reflexivity.
  - reflexivity.
  - constructor.
  - reflexivity.
Defined.

(** ** Operations on the listing itself *)

Lemma matches_blankID zone c : matches zone c (blankID c) = true.
Proof. apply matches_iff. split; reflexivity. Qed.

Lemma matches_refl zone c : matches zone c c = true.
Proof. apply matches_iff. split; reflexivity. Qed.

Lemma setSteps_listing zone cur :
  forall updates creates,
    fold_left (setStep zone) (map blankID cur)
              {| s_currentRecords := cur; s_updateRecords := updates;
                 s_appendRecords := creates |}
    = {| s_currentRecords := []; s_updateRecords := updates ++ cur;
         s_appendRecords := creates |}.
Proof.
  induction cur as [|c cur IH]; intros updates creates; simpl.
  - rewrite app_nil_r. reflexivity.
  - rewrite (setStep_no_ID zone _ (blankID c) eq_refl). unfold setScanned.
    cbn [s_currentRecords s_updateRecords s_appendRecords firstMatch].
    rewrite matches_blankID.
    replace (setID (blankID c) (ID c)) with c by (destruct c; reflexivity).
    simpl. rewrite IH, <- app_assoc. reflexivity.
Qed.

Lemma deleteSteps_listing zone cur :
  forall queue,
    fold_left (deleteStep zone) cur
              {| d_currentRecords := cur; d_deleteRecords := queue |}
    = {| d_currentRecords := []; d_deleteRecords := queue ++ cur |}.
Proof.
  induction cur as [|c cur IH]; intros queue; simpl.
  - rewrite app_nil_r. reflexivity.
  - rewrite (deleteStep_firstMatch zone _ c).
    cbn [d_currentRecords d_deleteRecords firstMatch].
    rewrite matches_refl. simpl. rewrite IH, <- app_assoc. reflexivity.
Qed.

(** X12. [SetRecords] of the listed records with their IDs blanked binds
    each record to itself, duplicates of a type and hostname included: no
    record is created, the pool is used up, and the update requests are
    those of the listed records under their own IDs, in listing order. *)
Theorem SetRecords_of_listing
        {R : Registrar} (p : Provider) (zone : string) (st : State)
        (cur : list Record_) (st1 : State) :
  GetRecords p zone st = (Ok cur, st1) ->
  setPartition zone (map blankID cur) cur
  = {| s_currentRecords := []; s_updateRecords := cur;
       s_appendRecords := [] |}
  /\ SetRecords p zone (map blankID cur) st = updateLoop p zone cur [] st1.
Proof.
  intros Hget.
  assert (Hpart : setPartition zone (map blankID cur) cur
                  = {| s_currentRecords := []; s_updateRecords := cur;
                       s_appendRecords := [] |})
    by (unfold setPartition; apply setSteps_listing).
  split; [exact Hpart|].
  rewrite (SetRecords_unfold p zone _ st cur st1 Hget), Hpart.
  simpl. rewrite updateLoop_ackLoop. reflexivity.
Qed.

Lemma SetRecords_of_listing_witness :
  SetRecords (R := Scripted.registrar) Scripted.provider Scripted.zone
    (map blankID [toRecord Scripted.txt])
    (Scripted.start [Scripted.http200 Scripted.txtBody;
                     Scripted.http200 Scripted.okBody])
  = updateLoop (R := Scripted.registrar) Scripted.provider Scripted.zone
      [toRecord Scripted.txt] []
      (Scripted.state [Scripted.http200 Scripted.okBody]
                      [listURL Scripted.provider Scripted.zone]).
Proof.
  apply (SetRecords_of_listing
           (R := Scripted.registrar) Scripted.provider Scripted.zone
           (Scripted.start [Scripted.http200 Scripted.txtBody;
                            Scripted.http200 Scripted.okBody])
           [toRecord Scripted.txt]).
  reflexivity.
Defined.

(** X13. [DeleteRecords] of the listed records, or of records with their
    types and hostnames one by one, queues every current record in listing
    order and leaves the pool empty: the delete requests are those of the
    whole listing. *)
Theorem DeleteRecords_of_listing
        {R : Registrar} (p : Provider) (zone : string)
        (records : list Record_) (st : State)
        (cur : list Record_) (st1 : State) :
  GetRecords p zone st = (Ok cur, st1) ->
  Forall2 (sameName zone) cur records ->
  deleteMatch zone records cur
  = {| d_currentRecords := []; d_deleteRecords := cur |}
  /\ DeleteRecords p zone records st = deleteLoop p zone cur [] st1.
Proof.
  intros Hget Hsame.
  assert (Hmatch : deleteMatch zone records cur
                   = {| d_currentRecords := []; d_deleteRecords := cur |}).
  { rewrite <- (deleteMatch_sameName zone cur records cur Hsame).
    unfold deleteMatch. apply deleteSteps_listing. }
  split; [exact Hmatch|].
  rewrite (DeleteRecords_unfold p zone records st cur st1 Hget), Hmatch.
  simpl. rewrite deleteLoop_ackLoop. reflexivity.
Qed.

Lemma DeleteRecords_of_listing_witness :
  DeleteRecords (R := Scripted.registrar) Scripted.provider Scripted.zone
    [Scripted.r_short]
    (Scripted.start [Scripted.http200 Scripted.txtBody;
                     Scripted.http200 Scripted.okBody])
  = deleteLoop (R := Scripted.registrar) Scripted.provider Scripted.zone
      [toRecord Scripted.txt] []
      (Scripted.state [Scripted.http200 Scripted.okBody]
                      [listURL Scripted.provider Scripted.zone]).
Proof.
  apply (DeleteRecords_of_listing
           (R := Scripted.registrar) Scripted.provider Scripted.zone
           [Scripted.r_short]
           (Scripted.start [Scripted.http200 Scripted.txtBody;
                            Scripted.http200 Scripted.okBody])
           [toRecord Scripted.txt]).
  - reflexivity.
  - constructor; [split; reflexivity | constructor].
Defined.

(** ** Nothing to do *)

Lemma deleteSteps_empty_pool zone records :
  forall queue,
    fold_left (deleteStep zone) records
              {| d_currentRecords := []; d_deleteRecords := queue |}
    = {| d_currentRecords := []; d_deleteRecords := queue |}.
Proof.
  induction records as [|r records IH]; intros queue; simpl; auto.
  rewrite (deleteStep_skip zone _ r) by constructor. apply IH.
Qed.

Lemma setSteps_empty_pool zone records :
  Forall (fun r => ID r = EmptyString) records ->
  forall s,
    s_currentRecords s = [] ->
    fold_left (setStep zone) records s = s.
Proof.
  induction 1 as [|r records Hr _ IH]; intros s Hs; simpl; auto.
  rewrite (setStep_empty_pool zone s r Hr Hs). apply IH. exact Hs.
Qed.

(** X14. With an empty list of records, [SetRecords] and [DeleteRecords]
    send the list request and nothing else, and return the empty sequence.
    The same happens in a zone whose listing is empty: [DeleteRecords]
    deletes nothing whatever is requested, and [SetRecords] of records
    without ID neither creates nor updates any of them. *)
Theorem nothing_to_do
        {R : Registrar} (p : Provider) (zone : string) (st : State)
        (cur : list Record_) (st1 : State) :
  GetRecords p zone st = (Ok cur, st1) ->
  SetRecords p zone [] st = (Ok [], st1)
  /\ DeleteRecords p zone [] st = (Ok [], st1)
  /\ (cur = [] ->
      forall records,
        DeleteRecords p zone records st = (Ok [], st1)
        /\ (Forall (fun r => ID r = EmptyString) records ->
            SetRecords p zone records st = (Ok [], st1))).
Proof.
  intros Hget.
  split; [rewrite (SetRecords_unfold p zone [] st cur st1 Hget); reflexivity|].
  split; [rewrite (DeleteRecords_unfold p zone [] st cur st1 Hget);
          reflexivity|].
  intros -> records. split.
  - rewrite (DeleteRecords_unfold p zone records st [] st1 Hget).
    unfold deleteMatch. rewrite deleteSteps_empty_pool. reflexivity.
  - intros Hids.
    rewrite (SetRecords_unfold p zone records st [] st1 Hget).
    unfold setPartition.
    rewrite (setSteps_empty_pool zone records Hids) by reflexivity.
    reflexivity.
Qed.

Lemma nothing_to_do_witness :
  SetRecords (R := Scripted.registrar) Scripted.provider Scripted.zone
    [Scripted.r; Scripted.q]
    (Scripted.start [Scripted.http200 Scripted.emptyBody;
                     Scripted.http200 Scripted.okBody])
  = (Ok [],
     Scripted.state [Scripted.http200 Scripted.okBody]
                    [listURL Scripted.provider Scripted.zone]).
Proof.
  destruct (nothing_to_do
              (R := Scripted.registrar) Scripted.provider Scripted.zone
              (Scripted.start [Scripted.http200 Scripted.emptyBody;
                               Scripted.http200 Scripted.okBody])
              []
              (Scripted.state [Scripted.http200 Scripted.okBody]
                              [listURL Scripted.provider Scripted.zone])
              eq_refl) as (_ & _ & Hempty).
  apply (Hempty eq_refl [Scripted.r; Scripted.q]).
  repeat constructor.
Defined.

(** ** How many records [DeleteRecords] deletes *)

Lemma bound_length binding :
  (List.length (bound binding) <= List.length binding)%nat.
Proof.
  induction binding as [|[c|] binding IH]; simpl; lia.
Qed.

(** X15. [DeleteRecords] queues at most one current record per requested
    record, and every current record is either queued or left in the pool:
    the queue is no longer than the request and no longer than the
    listing. *)
Theorem deleteMatch_counts (zone : string) (records cur : list Record_) :
  (List.length (d_deleteRecords (deleteMatch zone records cur))
   <= List.length records)%nat
  /\ (List.length (d_deleteRecords (deleteMatch zone records cur))
      + List.length (d_currentRecords (deleteMatch zone records cur))
      = List.length cur)%nat.
Proof.
  destruct (deleteSteps_binding zone records
              {| d_currentRecords := cur; d_deleteRecords := [] |})
    as (binding & Hlen & Hperm & _ & Hqueue).
  fold (deleteMatch zone records cur) in Hperm, Hqueue.
  simpl in Hperm, Hqueue. rewrite Hqueue. split.
  - rewrite <- Hlen. apply bound_length.
  - rewrite <- (Permutation_length Hperm), length_app. reflexivity.
Qed.

(** ** Failures of the listing *)

(** X16. [SetRecords] and [DeleteRecords] end the process exactly when
    their list request does, and an error of the list request is the error
    they return, in the state the list request left: no record is matched
    and no further request is sent. *)
Theorem list_failure_propagates
        {R : Registrar} (p : Provider) (zone : string)
        (records : list Record_) (st : State) :
  (fst (SetRecords p zone records st) = Fatal
   <-> fst (GetRecords p zone st) = Fatal)
  /\ (fst (DeleteRecords p zone records st) = Fatal
      <-> fst (GetRecords p zone st) = Fatal)
  /\ (forall e st1,
         GetRecords p zone st = (Err e, st1) ->
         SetRecords p zone records st = (Err e, st1)
         /\ DeleteRecords p zone records st = (Err e, st1)).
Proof.
  destruct (GetRecords p zone st) as [[cur|e|] st1] eqn:Hget.
  - rewrite (SetRecords_unfold p zone records st cur st1 Hget).
    rewrite (DeleteRecords_unfold p zone records st cur st1 Hget).
    simpl. split; [|split].
    + split; [|discriminate].
      destruct (ackLoop (addURL p zone) _ [] st1) as [[a|e|] st2] eqn:Ha.
      * destruct (ackLoop (updateURL p zone) _ [] st2) as [[o|e|] st3] eqn:Hu;
          simpl; try discriminate.
        intros _. exfalso. exact (ackLoop_not_fatal _ _ _ _ _ Hu).
      * discriminate.
      * intros _. exfalso. exact (ackLoop_not_fatal _ _ _ _ _ Ha).
    + split; [|discriminate].
      destruct (ackLoop (deleteURL p zone) _ [] st1) as [[o|e|] st2] eqn:Hd;
        simpl; try discriminate.
      intros _. exfalso. exact (ackLoop_not_fatal _ _ _ _ _ Hd).
    + intros e st2 H. discriminate.
  - unfold SetRecords, DeleteRecords, bind. rewrite Hget. simpl.
    split; [split; discriminate|]. split; [split; discriminate|].
    intros e0 st2 H. inversion H; subst. auto.
  - unfold SetRecords, DeleteRecords, bind. rewrite Hget. simpl.
    split; [tauto|]. split; [tauto|].
    intros e0 st2 H. discriminate.
Qed.

Lemma list_failure_propagates_witness :
  fst (SetRecords (R := Scripted.registrar) Scripted.provider Scripted.zone
         [Scripted.r] (Scripted.start [Scripted.http200 "<html>"]))
  = Fatal
  /\ DeleteRecords (R := Scripted.registrar) Scripted.provider Scripted.zone
       [Scripted.r] (Scripted.start [])
     = (Err TransportError,
        Scripted.state [] [listURL Scripted.provider Scripted.zone]).
Proof.
  split.
  - apply (list_failure_propagates
             (R := Scripted.registrar) Scripted.provider Scripted.zone
             [Scripted.r] (Scripted.start [Scripted.http200 "<html>"])).
    reflexivity.
  - apply (list_failure_propagates
             (R := Scripted.registrar) Scripted.provider Scripted.zone
             [Scripted.r] (Scripted.start [])).
    reflexivity.
Defined.

(** ** The test driver *)

Lemma DeleteRecords_ok_listed {R : Registrar} p zone records st out st2 :
  DeleteRecords p zone records st = (Ok out, st2) ->
  exists cur st1, GetRecords p zone st = (Ok cur, st1).
Proof.
  unfold DeleteRecords, bind.
  destruct (GetRecords p zone st) as [[cur|e|] st1]; try discriminate.
  intros _. exists cur, st1. reflexivity.
Qed.

(** X17. The test driver never returns an error: a failure of its delete
    call or of its list call ends the process, and after a failed delete
    call nothing more is sent. When it runs to the end it has sent the list
    request, at most two delete requests, those of the current records
    matched by [r] and [q], and the list request again, and it prints one
    line per record of the second listing. *)
Theorem main_outcomes {R : Registrar} (st : State) :
  match Driver.main st with
  | (Ok lines, st') =>
      exists cur st1 st2 listed,
        GetRecords Driver.provider Driver.zone st = (Ok cur, st1)
        /\ DeleteRecords Driver.provider Driver.zone [Driver.r; Driver.q] st
           = (Ok (d_deleteRecords
                    (deleteMatch Driver.zone [Driver.r; Driver.q] cur)), st2)
        /\ GetRecords Driver.provider Driver.zone st2 = (Ok listed, st')
        /\ lines = map Driver.line listed
        /\ (List.length
              (d_deleteRecords
                 (deleteMatch Driver.zone [Driver.r; Driver.q] cur)) <= 2)%nat
        /\ calls st' =
           (calls st
              ++ [listURL Driver.provider Driver.zone]
              ++ map (deleteURL Driver.provider Driver.zone)
                     (d_deleteRecords
                        (deleteMatch Driver.zone [Driver.r; Driver.q] cur))
              ++ [listURL Driver.provider Driver.zone])%list
  | (Err _, _) => False
  | (Fatal, st') =>
      ((forall deleted,
           fst (DeleteRecords Driver.provider Driver.zone
                  [Driver.r; Driver.q] st) <> Ok deleted)
       /\ snd (DeleteRecords Driver.provider Driver.zone
                 [Driver.r; Driver.q] st) = st')
      \/ exists deleted st2,
          DeleteRecords Driver.provider Driver.zone [Driver.r; Driver.q] st
          = (Ok deleted, st2)
          /\ snd (GetRecords Driver.provider Driver.zone st2) = st'
  end.
Proof.
  unfold Driver.main.
  destruct (DeleteRecords Driver.provider Driver.zone [Driver.r; Driver.q] st)
    as [[deleted|e|] st2] eqn:Hdel.
  - destruct (GetRecords Driver.provider Driver.zone st2)
      as [[listed|e|] st'] eqn:Hlist2.
    + destruct (DeleteRecords_ok_listed _ _ _ _ _ _ Hdel)
        as (cur & st1 & Hget).
      pose proof Hdel as Hloop.
      rewrite (DeleteRecords_unfold _ _ _ st cur st1 Hget) in Hloop.
      apply ackLoop_ok in Hloop. simpl in Hloop.
      destruct Hloop as (-> & Hcalls).
      exists cur, st1, st2, listed.
      split; [exact Hget|]. split; [reflexivity|].
      split; [exact Hlist2|]. split; [reflexivity|]. split.
      * destruct (deleteSteps_binding Driver.zone [Driver.r; Driver.q]
                    {| d_currentRecords := cur; d_deleteRecords := [] |})
          as (binding & Hlen & _ & _ & Hqueue).
        fold (deleteMatch Driver.zone [Driver.r; Driver.q] cur) in Hqueue.
        simpl in Hqueue, Hlen. rewrite Hqueue, <- Hlen. apply bound_length.
      * apply GetRecords_ok in Hget, Hlist2.
        destruct Hget as (_ & _ & _ & _ & _ & _ & Hc1).
        destruct Hlist2 as (_ & _ & _ & _ & _ & _ & Hc2).
        rewrite Hc2, Hcalls, Hc1, <- !app_assoc. reflexivity.
    + right. exists deleted, st2.
      split; [reflexivity | rewrite Hlist2; reflexivity].
    + right. exists deleted, st2.
      split; [reflexivity | rewrite Hlist2; reflexivity].
  - left. simpl. split; [discriminate | reflexivity].
  - left. simpl. split; [discriminate | reflexivity].
Qed.

Lemma main_outcomes_witness :
  exists cur st1 st2 listed,
    GetRecords (R := Scripted.registrar) Driver.provider Driver.zone
      (Scripted.start [Scripted.http200 Scripted.txtBody;
                       Scripted.http200 Scripted.okBody;
                       Scripted.http200 Scripted.listBody])
    = (Ok cur, st1)
    /\ DeleteRecords (R := Scripted.registrar) Driver.provider Driver.zone
         [Driver.r; Driver.q]
         (Scripted.start [Scripted.http200 Scripted.txtBody;
                          Scripted.http200 Scripted.okBody;
                          Scripted.http200 Scripted.listBody])
       = (Ok (d_deleteRecords
                (deleteMatch Driver.zone [Driver.r; Driver.q] cur)), st2)
    /\ GetRecords (R := Scripted.registrar) Driver.provider Driver.zone st2
       = (Ok listed,
          Scripted.state []
            [listURL Driver.provider Driver.zone;
             deleteURL Driver.provider Driver.zone (toRecord Scripted.txt);
             listURL Driver.provider Driver.zone])
    /\ [Driver.line (toRecord Scripted.www)] = map Driver.line listed
    /\ (List.length
          (d_deleteRecords
             (deleteMatch Driver.zone [Driver.r; Driver.q] cur)) <= 2)%nat
    /\ [listURL Driver.provider Driver.zone;
        deleteURL Driver.provider Driver.zone (toRecord Scripted.txt);
        listURL Driver.provider Driver.zone]
       = ([]
            ++ [listURL Driver.provider Driver.zone]
            ++ map (deleteURL Driver.provider Driver.zone)
                   (d_deleteRecords
                      (deleteMatch Driver.zone [Driver.r; Driver.q] cur))
            ++ [listURL Driver.provider Driver.zone])%list.
Proof.
  exact (main_outcomes
           (R := Scripted.registrar)
           (Scripted.start [Scripted.http200 Scripted.txtBody;
                            Scripted.http200 Scripted.okBody;
                            Scripted.http200 Scripted.listBody])).
Defined.

(** ** Batches *)

Lemma ackLoop_done {R : Registrar} url records :
  forall done st,
    ackLoop url records done st =
    match ackLoop url records [] st with
    | (Ok out, st') => (Ok (done ++ out)%list, st')
    | (Err e, st') => (Err e, st')
    | (Fatal, st') => (Fatal, st')
    end.
Proof.
  induction records as [|r records IH]; intros done st; simpl.
  - unfold ret. rewrite app_nil_r. reflexivity.
  - unfold bind.
    destruct (acknowledged (url r) st) as [[u|e|] st1]; auto.
    rewrite (IH (done ++ [r])%list), (IH ([] ++ [r])%list).
    destruct (ackLoop url records [] st1) as [[out|e|] st2]; auto.
    rewrite <- app_assoc. reflexivity.
Qed.

(** X18. [AppendRecords] of two lists in one call does what two calls in
    a row do: the second list is processed from the state the first left,
    the records returned are those of both calls, and a failure in the
    first list keeps the second from being sent. *)
Theorem AppendRecords_batches
        {R : Registrar} (p : Provider) (zone : string)
        (xs ys : list Record_) (st : State) :
  AppendRecords p zone (xs ++ ys) st =
  match AppendRecords p zone xs st with
  | (Ok out1, st1) =>
      match AppendRecords p zone ys st1 with
      | (Ok out2, st2) => (Ok (out1 ++ out2)%list, st2)
      | (Err e, st2) => (Err e, st2)
      | (Fatal, st2) => (Fatal, st2)
      end
  | (Err e, st1) => (Err e, st1)
  | (Fatal, st1) => (Fatal, st1)
  end.
Proof.
  unfold AppendRecords. rewrite !appendLoop_ackLoop, ackLoop_app.
  destruct (ackLoop (addURL p zone) xs [] st) as [[out1|e|] st1]; auto.
  apply ackLoop_done.
Qed.

(** ** Listed TTLs out of range *)

(** X19. The TTL of a listed record is its number of seconds times
    [time.Second] taken in 64 bits: it always lies in the range of a
    duration, and it is the exact product only when the product lies in
    that range, so a listed TTL of 9223372037 seconds or more is not
    represented. *)
Theorem listed_TTL_wraps (raw : RawRecord) :
  - 2 ^ 63 <= TTL (toRecord raw) < 2 ^ 63
  /\ (TTL (toRecord raw) = raw_TTL raw * Go.Second <->
      - 2 ^ 63 <= raw_TTL raw * Go.Second < 2 ^ 63)
  /\ (9223372037 <= raw_TTL raw ->
      TTL (toRecord raw) <> raw_TTL raw * Go.Second).
Proof.
  assert (Hrange : - 2 ^ 63 <= TTL (toRecord raw) < 2 ^ 63).
  { simpl. unfold Go.wrap64.
    pose proof (Z.mod_pos_bound (raw_TTL raw * Go.Second + 2 ^ 63) (2 ^ 64)
                                ltac:(lia)).
    lia. }
  split; [exact Hrange|]. split; [split|].
  - intros H. rewrite <- H. exact Hrange.
  - intros H. simpl. apply wrap64_small. exact H.
  - intros Hbig Heq. rewrite Heq in Hrange. unfold Go.Second in Hrange. lia.
Qed.

Lemma listed_TTL_wraps_witness :
  TTL (toRecord {| raw_ID := "9"; raw_Type := "A"; raw_Name := "www";
                   raw_Value := "1.2.3.4"; raw_TTL := 9223372037;
                   raw_Priority := 0 |})
  <> 9223372037 * Go.Second.
Proof.
  apply (listed_TTL_wraps
           {| raw_ID := "9"; raw_Type := "A"; raw_Name := "www";
              raw_Value := "1.2.3.4"; raw_TTL := 9223372037;
              raw_Priority := 0 |}).
  simpl. lia.
Defined.
